(** * katsubushi-exporter: the statistics client and the poll loop of main.go

    A shallow embedding of [getKatsubushiStats] and of the goroutine of
    [main], with the theorems about them.

    Go values are modelled as follows.
    - [string]: a sequence of bytes, as in Go.
    - [float64]: the binary64 numbers of [PrimFloat].
    - [map[string]V]: [option (gmap string V)], [None] being the nil map.
    - [error]: [option error], [None] being the nil error.
    - a run-time panic: the [Panic] constructor of [outcome]. *)

From Stdlib Require Import Ascii String ZArith PrimFloat.
From stdpp Require Import base strings gmap list.

Local Open Scope string_scope.

(** ** Go values *)

Abbreviation float64 := PrimFloat.float.

(** The errors that reach [main]: what [net.Dial] returns, what
    [bufio.Scanner.Err] reports, and the [*strconv.NumError] of
    [strconv.ParseFloat]. *)
Inductive error : Type :=
| OpError (op : string) (msg : string)
| ScanError (msg : string)
| NumError (func : string) (num : string) (msg : string).

(** A run-time panic of the Go program. *)
Inductive panic : Type :=
| IndexOutOfRange (index : nat) (len : nat)
| LabelPanic (msg : string).

(** A computation that returns or panics. *)
Inductive outcome (A : Type) : Type :=
| Ret (a : A)
| Panic (p : panic).
Arguments Ret {A} a.
Arguments Panic {A} p.

Definition obind {A B} (c : outcome A) (k : A -> outcome B) : outcome B :=
  match c with
  | Ret a => k a
  | Panic p => Panic p
  end.

Notation "'let*' x := c 'in' k" := (obind c (fun x => k))
  (at level 10, x name, c at level 100, k at level 200).

(** [res[i]] on a slice: a panic when [i] is out of range. *)
Definition index (res : list string) (i : nat) : outcome string :=
  match res !! i with
  | Some x => Ret x
  | None => Panic (IndexOutOfRange i (length res))
  end.

(** [m[k]] on a map: the zero value when [k] is absent or [m] is nil. *)
Definition map_index {V} (zero : V) (m : option (gmap string V)) (k : string) : V :=
  match m with
  | Some m => default zero (m !! k)
  | None => zero
  end.

(** ** strings.Split with a one-byte separator *)

Fixpoint Split (s : string) (sep : ascii) : list string :=
  match s with
  | EmptyString => [EmptyString]
  | String c s' =>
      if Ascii.eqb c sep then EmptyString :: Split s' sep
      else match Split s' sep with
           | t :: ts => String c t :: ts
           | [] => [String c EmptyString]
           end
  end.

(** [strings.Join], the inverse of [Split]. *)
Fixpoint Join (elems : list string) (sep : ascii) : string :=
  match elems with
  | [] => EmptyString
  | [t] => t
  | t :: ts => t ++ String sep (Join ts sep)
  end.

(** The number of occurrences of a byte in a string. *)
Fixpoint Count (s : string) (sep : ascii) : nat :=
  match s with
  | EmptyString => 0
  | String c s' => (if Ascii.eqb c sep then 1 else 0) + Count s' sep
  end.

(** ** time.Duration: a signed 64-bit count of nanoseconds *)

Definition wrap64 (z : Z) : Z := ((z + 2 ^ 63) mod 2 ^ 64 - 2 ^ 63)%Z.

Definition Second : Z := 1000000000%Z.

(** [time.Duration(n) * time.Second]. *)
Definition Seconds (n : Z) : Z := wrap64 (wrap64 n * Second).

(** ** The constants and package variables of main.go *)

Definition defaultMetricsInterval : Z := 30%Z.
Definition retryDuration : Z := 1%Z.

Definition infoLabels : list string := ["katsubushi_version"; "katsubushi_pid"].
Definition labels : list string := [].

(** ** The connection, as the scanner of getKatsubushiStats reads it

    [scanned] lists the tokens for which [sc.Scan()] is true: the text of each
    line, and with it the value [sc.Err()] has once that line was delivered (a
    scanner that met a read error still delivers the lines it had buffered).
    After them [sc.Scan()] is false and [sc.Err()] is [scanErr], which is
    [None] at a plain end of stream. *)
Record Conn : Type := mkConn {
  scanned : list (string * option error);
  scanErr : option error
}.

(** The pair [(conn, err)] that [net.Dial] returns. *)
Inductive dialed : Type :=
| Connected (c : Conn)
| DialFailed (err : error).

(** The triple that [getKatsubushiStats] returns. *)
Definition result : Type :=
  option (gmap string string) * option (gmap string float64) * option error.

(** What one turn of the scan loop does next: go on with the maps as they
    are now, or leave the function with a [return]. *)
Inductive flow : Type :=
| Next (info : gmap string string) (stats : gmap string float64)
| Return (r : result).

(** ** Events of the poll loop that the claims speak of *)

Inductive event : Type :=
| LogInfo (msg : string)
| LogErrorln (err : error)
| Sleep (nanoseconds : Z).

(** ** prometheus.GaugeVec

    A vector of gauges, one per list of label values, the values listed in
    the order of the vector's label names. *)
Abbreviation GaugeVec := (gmap (list string) float64).

(** A vector has no gauge until the first [With]; its label names are fixed
    here and handed to [WithSet] below. *)
Definition NewGaugeVec (labelNames : list string) : GaugeVec := ∅.

(** The seven package-level gauge vectors. *)
Record Gauges : Type := mkGauges {
  katsubushiInfo : GaugeVec;
  katsubushiUptime : GaugeVec;
  katsubushiCurrConnections : GaugeVec;
  katsubushiTotalConnections : GaugeVec;
  katsubushiCmdGet : GaugeVec;
  katsubushiGetHits : GaugeVec;
  katsubushiGetMisses : GaugeVec
}.

Definition initialGauges : Gauges :=
  {| katsubushiInfo := NewGaugeVec infoLabels;
     katsubushiUptime := NewGaugeVec labels;
     katsubushiCurrConnections := NewGaugeVec labels;
     katsubushiTotalConnections := NewGaugeVec labels;
     katsubushiCmdGet := NewGaugeVec labels;
     katsubushiGetHits := NewGaugeVec labels;
     katsubushiGetMisses := NewGaugeVec labels |}.

(** The state of the goroutine of [main]: the gauges, and what it logged and
    how long it slept so far. *)
Record state : Type := mkState {
  gauges : Gauges;
  trace : list event
}.

(** ** Registration of the gauge vectors (func init)

    What [prometheus.MustRegister] checks of a gauge vector is its
    descriptor: the name and help of its [GaugeOpts] and its label names. The
    registry is the set of the names registered so far. [Register] refuses a
    descriptor whose metric name or label names are not valid (any help
    string passes, the empty one too) and a name that is registered already,
    and [MustRegister] panics with the error that [Register] returns. *)

Record GaugeOpts : Type := mkGaugeOpts {
  Name : string;
  Help : string
}.

Record Desc : Type := mkDesc {
  fqName : string;
  help : string;
  labelNames : list string
}.

Definition NewDesc (opts : GaugeOpts) (names : list string) : Desc :=
  {| fqName := Name opts; help := Help opts; labelNames := names |}.

Definition isLetter (c : ascii) : bool :=
  let n := nat_of_ascii c in
  (Nat.leb 65 n && Nat.leb n 90) || (Nat.leb 97 n && Nat.leb n 122).

Definition isDigit (c : ascii) : bool :=
  let n := nat_of_ascii c in Nat.leb 48 n && Nat.leb n 57.

Fixpoint allChars (p : ascii -> bool) (s : string) : bool :=
  match s with
  | EmptyString => true
  | String c s' => p c && allChars p s'
  end.

(** A metric name: [[a-zA-Z_:][a-zA-Z0-9_:]*]. *)
Definition IsValidMetricName (s : string) : bool :=
  match s with
  | EmptyString => false
  | String c s' =>
      (isLetter c || Ascii.eqb c "_" || Ascii.eqb c ":")
      && allChars (fun c => isLetter c || isDigit c || Ascii.eqb c "_" || Ascii.eqb c ":") s'
  end.

(** A label name: [[a-zA-Z_][a-zA-Z0-9_]*], not starting with two
    underscores. *)
Definition checkLabelName (s : string) : bool :=
  match s with
  | EmptyString => false
  | String c s' =>
      (isLetter c || Ascii.eqb c "_")
      && allChars (fun c => isLetter c || isDigit c || Ascii.eqb c "_") s'
      && negb (String.prefix "__" s)
  end.

(** The error a descriptor carries, if any. *)
Definition descError (d : Desc) : option string :=
  if negb (IsValidMetricName (fqName d)) then Some "not a valid metric name"
  else if negb (forallb checkLabelName (labelNames d)) then Some "not a valid label name"
  else if negb (bool_decide (NoDup (labelNames d))) then Some "duplicate label names"
  else None.

Inductive RegisterError : Type :=
| InvalidDesc (name : string) (reason : string)
| AlreadyRegistered (name : string).

(** The outcome of [MustRegister]: the registry with the new name, or the
    panic. *)
Inductive registration : Type :=
| Registered (r : gset string)
| RegisterPanic (e : RegisterError).

Definition MustRegister (r : gset string) (d : Desc) : registration :=
  match descError d with
  | Some reason => RegisterPanic (InvalidDesc (fqName d) reason)
  | None =>
      if bool_decide (fqName d ∈ r) then RegisterPanic (AlreadyRegistered (fqName d))
      else Registered ({[fqName d]} ∪ r)
  end.

(** One [MustRegister] after the other, stopping at the first panic. *)
Definition mustRegisterAll (ds : list Desc) (r : gset string) : registration :=
  fold_left (fun acc d =>
               match acc with
               | Registered r' => MustRegister r' d
               | RegisterPanic e => RegisterPanic e
               end) ds (Registered r).

(** The descriptors of the seven vectors of lines 47 to 103, in the order
    in which [init] registers them. *)
Definition gaugeDescs : list Desc :=
  [NewDesc {| Name := "katsubushi_info"; Help := "Information of katsubushi." |} infoLabels;
   NewDesc {| Name := "katsubushi_uptime"; Help := "Uptime of katsubushi process." |} labels;
   NewDesc {| Name := "katsubushi_curr_connections"; Help := "Current connection." |} labels;
   NewDesc {| Name := "katsubushi_total_connections"; Help := "Total connection." |} labels;
   NewDesc {| Name := "katsubushi_get_cmd"; Help := "Number of GET command." |} labels;
   NewDesc {| Name := "katsubushi_get_hits"; Help := "Number of Get command success." |} labels;
   NewDesc {| Name := "katsubushi_get_misses"; Help := "Number of Get command miss." |} labels].

(** [func init], from the registry as the library set it up. *)
Definition init (r : gset string) : registration := mustRegisterAll gaugeDescs r.

(** ** An instance of strconv.ParseFloat for the examples

    [parseDigits] reads a non-empty string of decimal digits and refuses every
    other string with the [*NumError] of [strconv.ParseFloat]. The examples
    below use it only where the two agree. *)
Definition digit (c : ascii) : option float64 :=
  match c with
  | "0"%char => Some 0%float
  | "1"%char => Some 1%float
  | "2"%char => Some 2%float
  | "3"%char => Some 3%float
  | "4"%char => Some 4%float
  | "5"%char => Some 5%float
  | "6"%char => Some 6%float
  | "7"%char => Some 7%float
  | "8"%char => Some 8%float
  | "9"%char => Some 9%float
  | _ => None
  end.

Fixpoint digits (acc : float64) (s : string) : option float64 :=
  match s with
  | EmptyString => Some acc
  | String c s' =>
      match digit c with
      | Some d => digits (PrimFloat.add (PrimFloat.mul acc 10%float) d) s'
      | None => None
      end
  end.

Definition parseDigits (s : string) : float64 * option error :=
  match s with
  | EmptyString => (0%float, Some (NumError "ParseFloat" s "invalid syntax"))
  | _ =>
      match digits 0%float s with
      | Some f => (f, None)
      | None => (0%float, Some (NumError "ParseFloat" s "invalid syntax"))
      end
  end.

(** ** Replies used in the examples *)

Definition reply1 : Conn :=
  mkConn [("STAT version 1.2.3", None); ("STAT pid 42", None);
          ("STAT uptime 100", None); ("END", None)] None.

Definition replyNoIdentity : Conn :=
  mkConn [("STAT uptime 100", None); ("END", None)] None.

Definition replyBadValue : Conn :=
  mkConn [("STAT version 1.2.3", None); ("STAT cmd_get abc", None);
          ("STAT pid 42", None); ("END", None)] None.

Definition replyNoEND : Conn :=
  mkConn [("STAT version 1.2.3", None); ("STAT pid 42", None)] None.

Definition replyReadError : Conn :=
  mkConn [("STAT version 1.2.3", None)] (Some (ScanError "connection reset by peer")).

Definition replyRestarted : Conn :=
  mkConn [("STAT version 1.2.3", None); ("STAT pid 43", None);
          ("STAT uptime 5", None); ("END", None)] None.

Definition replyTwoUptimes : Conn :=
  mkConn [("STAT uptime 1", None); ("STAT uptime 100", None);
          ("STAT pid 42", None); ("END", None)] None.

Definition replyBadAfterEND : Conn :=
  mkConn [("STAT version 1.2.3", None); ("STAT pid 42", None);
          ("STAT uptime 100", None); ("END", None);
          ("STAT cmd_get abc", None)] None.

Definition replyTwoBadValues : Conn :=
  mkConn [("STAT curr_connections x", None); ("STAT cmd_get abc", None);
          ("END", None)] None.

Definition replyNoENDBadValue : Conn :=
  mkConn [("STAT version 1.2.3", None); ("STAT pid 42", None);
          ("STAT cmd_get abc", None)] None.

Definition acceptAll (s : string) : bool := true.

Section Exporter.

(** [strconv.ParseFloat(s, 64)]: the pair [(f, err)] it returns. *)
Context (ParseFloat : string -> float64 * option error).

(** The check of a label value by the metrics library (valid UTF-8), which
    [With] turns into a panic. *)
Context (ValidString : string -> bool).

(** The value of the flag [-metricsInterval]. *)
Context (metricsInterval : Z).

(** ** getKatsubushiStats *)

(** The body of [for sc.Scan()], after the test for [END] (main.go, lines
    135 to 146). *)
Definition loopBody (info : gmap string string) (stats : gmap string float64)
    (s : string) : outcome flow :=
  let res := Split s " " in
  let* r0 := index res 0 in
  if String.eqb r0 "STAT" then
    let* r1 := index res 1 in
    if String.eqb r1 "pid" || String.eqb r1 "version" then
      let* k := index res 1 in
      let* v := index res 2 in
      Ret (Next (<[k := v]> info) stats)
    else
      let* v := index res 2 in
      match ParseFloat v with
      | (f, None) =>
          let* k := index res 1 in
          Ret (Next info (<[k := f]> stats))
      | (_, Some err) => Ret (Return (None, None, Some err))
      end
  else Ret (Next info stats).

(** The loop [for sc.Scan() { ... }] followed by [err = sc.Err()] and the
    final [return info, stats, err] (lines 129 to 149). *)
Fixpoint scanLoop (toks : list (string * option error)) (final : option error)
    (info : gmap string string) (stats : gmap string float64) : outcome result :=
  match toks with
  | [] => Ret (Some info, Some stats, final)
  | (s, e) :: rest =>
      if String.eqb s "END" then Ret (Some info, Some stats, e)
      else
        let* fl := loopBody info stats s in
        match fl with
        | Next info' stats' => scanLoop rest final info' stats'
        | Return r => Ret r
        end
  end.

(** [getKatsubushiStats], given what [net.Dial] returned. The command
    [STATS] is written to the connection and the result of that write is
    not looked at; the two maps start empty on every call. *)
Definition getKatsubushiStats (d : dialed) : outcome result :=
  match d with
  | DialFailed err => Ret (None, None, Some err)
  | Connected c => scanLoop (scanned c) (scanErr c) ∅ ∅
  end.

(** ** The goroutine of main *)

(** [vec.With(l).Set(x)]. [With] panics where [GetMetricWith] would return an
    error: the labels given are not exactly the vector's label names, or a
    value is refused. *)
Definition WithSet (variableLabels : list string) (vec : GaugeVec)
    (l : gmap string string) (x : float64) : outcome GaugeVec :=
  if negb (Nat.eqb (size l) (length variableLabels)) then
    Panic (LabelPanic "inconsistent label cardinality")
  else
    match mapM (fun name => l !! name) variableLabels with
    | None => Panic (LabelPanic "label name not found")
    | Some values =>
        if forallb ValidString values then Ret (<[values := x]> vec)
        else Panic (LabelPanic "label value is not valid UTF-8")
    end.

(** Lines 169 to 180: the seven [Set] calls of one cycle. *)
Definition publish (info : option (gmap string string))
    (stats : option (gmap string float64)) (g : Gauges) : outcome Gauges :=
  let infoLabel : gmap string string :=
    <["katsubushi_version" := map_index "" info "version"]>
      (<["katsubushi_pid" := map_index "" info "pid"]> ∅) in
  let label : gmap string string := ∅ in
  let* gInfo := WithSet infoLabels (katsubushiInfo g) infoLabel 1%float in
  let* gUptime := WithSet labels (katsubushiUptime g) label (map_index 0%float stats "uptime") in
  let* gCurr := WithSet labels (katsubushiCurrConnections g) label (map_index 0%float stats "curr_connections") in
  let* gTotal := WithSet labels (katsubushiTotalConnections g) label (map_index 0%float stats "total_connections") in
  let* gCmdGet := WithSet labels (katsubushiCmdGet g) label (map_index 0%float stats "cmd_get") in
  let* gHits := WithSet labels (katsubushiGetHits g) label (map_index 0%float stats "get_hits") in
  let* gMisses := WithSet labels (katsubushiGetMisses g) label (map_index 0%float stats "get_misses") in
  Ret {| katsubushiInfo := gInfo;
         katsubushiUptime := gUptime;
         katsubushiCurrConnections := gCurr;
         katsubushiTotalConnections := gTotal;
         katsubushiCmdGet := gCmdGet;
         katsubushiGetHits := gHits;
         katsubushiGetMisses := gMisses |}.

Definition logged (st : state) (evs : list event) : state :=
  {| gauges := gauges st; trace := trace st ++ evs |}.

(** One turn of the [for] loop of the goroutine (lines 158 to 181). *)
Definition iteration (d : dialed) (st : state) : outcome state :=
  let* r := getKatsubushiStats d in
  match r with
  | (_, _, Some err) =>
      Ret (logged st [LogErrorln err; Sleep (Seconds retryDuration)])
  | (info, stats, None) =>
      if String.eqb (map_index "" info "version") ""
         || String.eqb (map_index "" info "pid") "" then
        Ret (logged st [LogInfo "Retry since info(version or pid) is empty";
                        Sleep (Seconds retryDuration)])
      else
        let* g := publish info stats (gauges st) in
        Ret {| gauges := g; trace := trace st ++ [Sleep (Seconds metricsInterval)] |}
  end.

(** The first turns of the loop, one per dial outcome in [ds]. *)
Fixpoint pollLoop (ds : list dialed) (st : state) : outcome state :=
  match ds with
  | [] => Ret st
  | d :: ds' => let* st' := iteration d st in pollLoop ds' st'
  end.

(** [main] up to the start of the goroutine. *)
Definition start : state :=
  {| gauges := initialGauges; trace := [LogInfo "start katsubushi exporter"] |}.

(** ** The reply as the specification describes it *)

(** A line the parser gets through: a line whose first token is not [STAT],
    or a line [STAT <key> <value>] whose value is a number unless the key is
    [pid] or [version]. *)
Definition wellFormedLine (s : string) : bool :=
  match Split s " " with
  | t :: rest =>
      if String.eqb t "STAT" then
        match rest with
        | k :: v :: _ =>
            String.eqb k "pid" || String.eqb k "version"
            || match ParseFloat v with (_, None) => true | (_, Some _) => false end
        | _ => false
        end
      else true
  | [] => true
  end.

(** What a well-formed line adds to InfoFields and StatFields. *)
Definition specStep (acc : gmap string string * gmap string float64) (s : string)
    : gmap string string * gmap string float64 :=
  match Split s " " with
  | t :: k :: v :: _ =>
      if String.eqb t "STAT" then
        if String.eqb k "pid" || String.eqb k "version"
        then (<[k := v]> acc.1, acc.2)
        else (acc.1, <[k := (ParseFloat v).1]> acc.2)
      else acc
  | _ => acc
  end.

(** InfoFields and StatFields accumulated over the lines of a reply. *)
Definition accumulated (lines : list string)
    : gmap string string * gmap string float64 :=
  fold_left specStep lines (∅, ∅).

(** The lines before the terminator: none is [END], each is well formed. *)
Definition bodyLines (toks : list (string * option error)) : Prop :=
  Forall (fun t => t.1 <> "END" /\ wellFormedLine t.1 = true) toks.

(** A field of InfoFields that is missing or empty. *)
Definition fieldEmpty (info : option (gmap string string)) (k : string) : Prop :=
  match info with
  | Some m => m !! k = None \/ m !! k = Some ""
  | None => True
  end.

(** A key that the reply's StatFields does not hold. *)
Definition statAbsent (stats : option (gmap string float64)) (k : string) : Prop :=
  match stats with
  | Some m => m !! k = None
  | None => True
  end.

(** The six scalar gauges, each with the key of StatFields it is set from
    (lines 175 to 180). *)
Definition scalarGauges : list (string * (Gauges -> GaugeVec)) :=
  [("uptime", katsubushiUptime);
   ("curr_connections", katsubushiCurrConnections);
   ("total_connections", katsubushiTotalConnections);
   ("cmd_get", katsubushiCmdGet);
   ("get_hits", katsubushiGetHits);
   ("get_misses", katsubushiGetMisses)].

(** The key a line sets: the second token of a [STAT] line of three tokens
    or more. *)
Definition lineKey (s : string) : option string :=
  match Split s " " with
  | t :: k :: _ :: _ => if String.eqb t "STAT" then Some k else None
  | _ => None
  end.

(** The durations slept in a trace, in order. *)
Definition sleeps (tr : list event) : list Z :=
  omap (fun ev => match ev with Sleep d => Some d | _ => None end) tr.


(** The gauges as a turn that publishes leaves them. *)
Definition published (info : option (gmap string string))
    (stats : option (gmap string float64)) (g : Gauges) : Gauges :=
  {| katsubushiInfo :=
       <[[map_index "" info "version"; map_index "" info "pid"] := 1%float]>
         (katsubushiInfo g);
     katsubushiUptime :=
       <[[] := map_index 0%float stats "uptime"]> (katsubushiUptime g);
     katsubushiCurrConnections :=
       <[[] := map_index 0%float stats "curr_connections"]> (katsubushiCurrConnections g);
     katsubushiTotalConnections :=
       <[[] := map_index 0%float stats "total_connections"]> (katsubushiTotalConnections g);
     katsubushiCmdGet :=
       <[[] := map_index 0%float stats "cmd_get"]> (katsubushiCmdGet g);
     katsubushiGetHits :=
       <[[] := map_index 0%float stats "get_hits"]> (katsubushiGetHits g);
     katsubushiGetMisses :=
       <[[] := map_index 0%float stats "get_misses"]> (katsubushiGetMisses g) |}.

(** * Properties *)

(** ** Split *)

Lemma Split_cons (s : string) (sep : ascii) :
  exists t ts, Split s sep = t :: ts.
Proof.
  induction s as [|c s IH]; simpl.
  - by exists EmptyString, [].
  - destruct (Ascii.eqb c sep); [by eauto|].
    destruct IH as (t & ts & ->). by eauto.
Qed.

Lemma Split_length (s : string) (sep : ascii) :
  length (Split s sep) = S (Count s sep).
Proof.
  induction s as [|c s IH]; simpl; [done|].
  destruct (Ascii.eqb c sep); simpl; [by rewrite IH|].
  destruct (Split_cons s sep) as (t & ts & E).
  rewrite E in IH |- *. simpl in *. done.
Qed.

Lemma Join_String (c : ascii) (t : string) (ts : list string) (sep : ascii) :
  Join (String c t :: ts) sep = String c (Join (t :: ts) sep).
Proof. by destruct ts. Qed.

Lemma Join_empty (t : string) (ts : list string) (sep : ascii) :
  Join (EmptyString :: t :: ts) sep = String sep (Join (t :: ts) sep).
Proof. reflexivity. Qed.

Lemma Join_Split (s : string) (sep : ascii) : Join (Split s sep) sep = s.
Proof.
  induction s as [|c s IH]; [done|].
  destruct (Split_cons s sep) as (t & ts & E).
  cbn [Split]. rewrite E in IH |- *.
  destruct (Ascii.eqb_spec c sep) as [->|Hne].
  - by rewrite Join_empty, IH.
  - by rewrite Join_String, IH.
Qed.

(** ** The loop body, case by case *)

Lemma String_eqb_false (a b : string) : a <> b -> String.eqb a b = false.
Proof. by intros H; apply String.eqb_neq. Qed.

Lemma loopBody_other info stats s :
  Split s " " !! 0 <> Some "STAT" ->
  loopBody info stats s = Ret (Next info stats).
Proof.
  intros H. unfold loopBody.
  destruct (Split_cons s " ") as (t & ts & E). rewrite E in H |- *.
  unfold index; simpl.
  rewrite String_eqb_false; [done|]. intros ->. by apply H.
Qed.

Lemma loopBody_info info stats s k v more :
  Split s " " = "STAT" :: k :: v :: more ->
  k = "pid" \/ k = "version" ->
  loopBody info stats s = Ret (Next (<[k := v]> info) stats).
Proof.
  intros E Hk. unfold loopBody, index. rewrite E. simpl.
  by destruct Hk as [-> | ->].
Qed.

Lemma loopBody_stat info stats s k v more f :
  Split s " " = "STAT" :: k :: v :: more ->
  k <> "pid" -> k <> "version" ->
  ParseFloat v = (f, None) ->
  loopBody info stats s = Ret (Next info (<[k := f]> stats)).
Proof.
  intros E H1 H2 Hf. unfold loopBody, index. rewrite E. simpl.
  rewrite !String_eqb_false by done. simpl. by rewrite Hf.
Qed.

Lemma loopBody_bad info stats s k v more f err :
  Split s " " = "STAT" :: k :: v :: more ->
  k <> "pid" -> k <> "version" ->
  ParseFloat v = (f, Some err) ->
  loopBody info stats s = Ret (Return (None, None, Some err)).
Proof.
  intros E H1 H2 Hf. unfold loopBody, index. rewrite E. simpl.
  rewrite !String_eqb_false by done. simpl. by rewrite Hf.
Qed.

Lemma loopBody_short1 info stats s :
  Split s " " = ["STAT"] ->
  loopBody info stats s = Panic (IndexOutOfRange 1 1).
Proof. intros E. unfold loopBody, index. by rewrite E. Qed.

Lemma loopBody_short2 info stats s k :
  Split s " " = ["STAT"; k] ->
  loopBody info stats s = Panic (IndexOutOfRange 2 2).
Proof.
  intros E. unfold loopBody, index. rewrite E. simpl.
  by destruct (String.eqb k "pid" || String.eqb k "version").
Qed.

(** A well-formed line is one the body gets through, and the body then does
    what [specStep] says. *)
Lemma loopBody_wellFormed info stats s :
  wellFormedLine s = true ->
  loopBody info stats s
  = Ret (Next (specStep (info, stats) s).1 (specStep (info, stats) s).2).
Proof.
  unfold wellFormedLine, specStep, loopBody, index.
  destruct (Split_cons s " ") as (t & rest & ->). simpl.
  destruct (String.eqb t "STAT") eqn:Et.
  - destruct rest as [|k [|v more]]; [done..|]. simpl.
    destruct (String.eqb k "pid" || String.eqb k "version") eqn:Ek; simpl; [done|].
    by destruct (ParseFloat v) as [f [err|]].
  - intros _. by destruct rest as [|k [|v more]].
Qed.

Lemma wellFormedLine_iff info stats s :
  wellFormedLine s = true <->
  exists info' stats', loopBody info stats s = Ret (Next info' stats').
Proof.
  split; [intros H; rewrite (loopBody_wellFormed _ _ _ H); by eauto|].
  intros (info' & stats' & H). revert H.
  unfold wellFormedLine, loopBody, index.
  destruct (Split_cons s " ") as (t & rest & ->). simpl.
  destruct (String.eqb t "STAT"); [|done].
  destruct rest as [|k [|v more]]; simpl; [done| |].
  - by destruct (String.eqb k "pid" || String.eqb k "version").
  - destruct (String.eqb k "pid" || String.eqb k "version"); simpl; [done|].
    by destruct (ParseFloat v) as [f [err|]].
Qed.

(** The three ways the body hands the maps on. *)
Lemma loopBody_Next_inv info stats s info' stats' :
  loopBody info stats s = Ret (Next info' stats') ->
  (Split s " " !! 0 <> Some "STAT" /\ info' = info /\ stats' = stats)
  \/ (exists k v more,
        Split s " " = "STAT" :: k :: v :: more /\ (k = "pid" \/ k = "version")
        /\ info' = <[k := v]> info /\ stats' = stats)
  \/ (exists k v more f,
        Split s " " = "STAT" :: k :: v :: more /\ k <> "pid" /\ k <> "version"
        /\ ParseFloat v = (f, None)
        /\ info' = info /\ stats' = <[k := f]> stats).
Proof.
  unfold loopBody, index.
  destruct (Split_cons s " ") as (t & rest & ->). simpl.
  destruct (String.eqb_spec t "STAT") as [->|Ht].
  - destruct rest as [|k [|v more]]; simpl; [done| |].
    { by destruct (String.eqb k "pid" || String.eqb k "version"). }
    destruct (String.eqb_spec k "pid") as [->|Hpid]; simpl.
    { intros [= <- <-]. right; left. by exists "pid", v, more; eauto. }
    destruct (String.eqb_spec k "version") as [->|Hver]; simpl.
    { intros [= <- <-]. right; left. by exists "version", v, more; eauto. }
    destruct (ParseFloat v) as [f [err|]] eqn:Ef; simpl; [done|].
    intros [= <- <-]. right; right. by exists k, v, more, f.
  - intros [= <- <-]. left. split; [|done]. by intros [= ->].
Qed.

(** The body either hands the maps on, or returns two nil maps and an
    error, or panics. *)
Lemma loopBody_Return_inv info stats s r :
  loopBody info stats s = Ret (Return r) ->
  exists err, r = (None, None, Some err).
Proof.
  unfold loopBody, index.
  destruct (Split_cons s " ") as (t & rest & ->). simpl.
  destruct (String.eqb t "STAT"); [|done].
  destruct rest as [|k [|v more]]; simpl; [done| |].
  { by destruct (String.eqb k "pid" || String.eqb k "version"). }
  destruct (String.eqb k "pid" || String.eqb k "version"); simpl; [done|].
  destruct (ParseFloat v) as [f [err|]]; simpl; [|done].
  intros [= <-]. by eauto.
Qed.

(** ** The scan loop *)

Lemma scanLoop_cons_Next s e rest final info stats info' stats' :
  s <> "END" ->
  loopBody info stats s = Ret (Next info' stats') ->
  scanLoop ((s, e) :: rest) final info stats = scanLoop rest final info' stats'.
Proof.
  intros Hs Hb. simpl. rewrite String_eqb_false by done. by rewrite Hb.
Qed.

(** Over well-formed lines the loop folds [specStep]. *)
Lemma scanLoop_bodyLines pre rest final info stats :
  bodyLines pre ->
  scanLoop (pre ++ rest) final info stats
  = scanLoop rest final (fold_left specStep pre.*1 (info, stats)).1
                        (fold_left specStep pre.*1 (info, stats)).2.
Proof.
  intros Hpre. revert info stats.
  induction Hpre as [|[s e] pre [Hs Hwf] _ IH]; intros info stats; [done|].
  simpl in Hs, Hwf. rewrite <- app_comm_cons.
  rewrite (scanLoop_cons_Next _ _ _ _ _ _ _ _ Hs (loopBody_wellFormed _ _ _ Hwf)).
  rewrite IH. simpl. by destruct (specStep (info, stats) s).
Qed.

(** A stream read to its end behaves as the same stream followed by
    [END], whatever its lines are. *)
Lemma scanLoop_END_appended toks final final' info stats :
  scanLoop toks final info stats
  = scanLoop (toks ++ [("END", final)]) final' info stats.
Proof.
  revert info stats. induction toks as [|[s e] toks IH]; intros info stats; [done|].
  simpl. destruct (String.eqb s "END"); [done|].
  destruct (loopBody info stats s) as [[info' stats'|r]|p]; simpl; [|done..].
  apply IH.
Qed.

Lemma getKatsubushiStats_body pre rest final :
  bodyLines pre ->
  getKatsubushiStats (Connected (mkConn (pre ++ rest) final))
  = scanLoop rest final (accumulated pre.*1).1 (accumulated pre.*1).2.
Proof. intros Hpre. simpl. by rewrite scanLoop_bodyLines. Qed.

(** A line that makes the body return or panic does the same to the
    whole fetch, once the scanner reaches it. *)
Lemma getKatsubushiStats_Return pre s e post final r :
  bodyLines pre -> s <> "END" ->
  (forall info stats, loopBody info stats s = Ret (Return r)) ->
  getKatsubushiStats (Connected (mkConn (pre ++ (s, e) :: post) final)) = Ret r.
Proof.
  intros Hpre Hs Hb. rewrite getKatsubushiStats_body by done.
  simpl. rewrite String_eqb_false by done. by rewrite Hb.
Qed.

Lemma getKatsubushiStats_Panic pre s e post final p :
  bodyLines pre -> s <> "END" ->
  (forall info stats, loopBody info stats s = Panic p) ->
  getKatsubushiStats (Connected (mkConn (pre ++ (s, e) :: post) final)) = Panic p.
Proof.
  intros Hpre Hs Hb. rewrite getKatsubushiStats_body by done.
  simpl. rewrite String_eqb_false by done. by rewrite Hb.
Qed.

Lemma STAT_line_not_END s rest : Split s " " = "STAT" :: rest -> s <> "END".
Proof. by intros E ->. Qed.

Lemma fieldEmpty_map_index info k :
  fieldEmpty info k <-> map_index "" info k = "".
Proof.
  destruct info as [m|]; simpl; [|done].
  destruct (m !! k) as [v|]; simpl; split.
  - by intros [?|[= ->]].
  - intros ->. by right.
  - done.
  - intros _. by left.
Qed.

Lemma statAbsent_map_index stats k :
  statAbsent stats k -> map_index 0%float stats k = 0%float.
Proof. destruct stats as [m|]; simpl; [|done]. by intros ->. Qed.

(** Where the entries of the returned maps come from. *)
Lemma scanLoop_sources toks final info0 stats0 info stats err :
  scanLoop toks final info0 stats0 = Ret (Some info, Some stats, err) ->
  (forall k v, info !! k = Some v ->
     info0 !! k = Some v
     \/ ((k = "pid" \/ k = "version")
         /\ exists s more, s ∈ toks.*1 /\ Split s " " = "STAT" :: k :: v :: more))
  /\ (forall k f, stats !! k = Some f ->
        stats0 !! k = Some f
        \/ (k <> "pid" /\ k <> "version"
            /\ exists s v more, s ∈ toks.*1 /\ Split s " " = "STAT" :: k :: v :: more
                                /\ ParseFloat v = (f, None))).
Proof.
  revert info0 stats0.
  induction toks as [|[s e] toks IH]; intros info0 stats0; simpl.
  { intros [= <- <- <-]. by split; intros; left. }
  destruct (String.eqb s "END").
  { intros [= <- <- <-]. by split; intros; left. }
  destruct (loopBody info0 stats0 s) as [[info' stats'|r]|p] eqn:Hb; simpl; [| |done].
  2:{ apply loopBody_Return_inv in Hb as [err' ->]. done. }
  intros Hrest. destruct (IH _ _ Hrest) as [HI HS]. clear IH Hrest.
  assert (Hlater : forall (P : string -> Prop),
            (exists x, x ∈ toks.*1 /\ P x) -> exists x, x ∈ s :: toks.*1 /\ P x).
  { intros P (x & Hx & HP). exists x. split; [by right|done]. }
  apply loopBody_Next_inv in Hb
    as [(_ & -> & ->)|[(k0 & v0 & more0 & E & Hk0 & -> & ->)
                      |(k0 & v0 & more0 & f0 & E & Hp & Hv & Hf & -> & ->)]].
  - split.
    + intros k v Hkv. destruct (HI k v Hkv) as [?|(? & x & more & ? & ?)]; [by left|].
      right. split; [done|]. exists x, more. split; [by right|done].
    + intros k f Hkf.
      destruct (HS k f Hkf) as [?|(? & ? & x & v & more & ? & ? & ?)]; [by left|].
      right. split; [done|]. split; [done|]. exists x, v, more. split; [by right|done].
  - split.
    + intros k v Hkv. destruct (HI k v Hkv) as [Hl|(? & x & more & ? & ?)].
      * destruct (decide (k0 = k)) as [->|Hne].
        -- rewrite lookup_insert_eq in Hl. injection Hl as ->.
           right. split; [done|]. exists s, more0. split; [by left|done].
        -- rewrite lookup_insert_ne in Hl by done. by left.
      * right. split; [done|]. exists x, more. split; [by right|done].
    + intros k f Hkf.
      destruct (HS k f Hkf) as [?|(? & ? & x & v & more & ? & ? & ?)]; [by left|].
      right. split; [done|]. split; [done|]. exists x, v, more. split; [by right|done].
  - split.
    + intros k v Hkv. destruct (HI k v Hkv) as [?|(? & x & more & ? & ?)]; [by left|].
      right. split; [done|]. exists x, more. split; [by right|done].
    + intros k f Hkf.
      destruct (HS k f Hkf) as [Hl|(? & ? & x & v & more & ? & ? & ?)].
      * destruct (decide (k0 = k)) as [->|Hne].
        -- rewrite lookup_insert_eq in Hl. injection Hl as ->.
           right. split; [done|]. split; [done|].
           exists s, v0, more0. split; [by left|done].
        -- rewrite lookup_insert_ne in Hl by done. by left.
      * right. split; [done|]. split; [done|].
        exists x, v, more. split; [by right|done].
Qed.

(** [specStep] lays what a line holds over the maps it is given. *)
Lemma specStep_union acc s :
  specStep acc s
  = ((specStep (∅, ∅) s).1 ∪ acc.1, (specStep (∅, ∅) s).2 ∪ acc.2).
Proof.
  destruct acc as [info stats]. unfold specStep.
  destruct (Split s " ") as [|t [|k [|v more]]]; simpl;
    rewrite ?(left_id_L ∅ (∪)); try done.
  destruct (String.eqb t "STAT"); simpl; [|by rewrite !(left_id_L ∅ (∪))].
  destruct (String.eqb k "pid" || String.eqb k "version"); simpl;
    by rewrite (left_id_L ∅ (∪)), insert_empty, insert_union_singleton_l.
Qed.

Lemma fold_specStep_union lines acc :
  fold_left specStep lines acc
  = ((fold_left specStep lines (∅, ∅)).1 ∪ acc.1,
     (fold_left specStep lines (∅, ∅)).2 ∪ acc.2).
Proof.
  revert acc. induction lines as [|l lines IH]; intros acc; simpl.
  { destruct acc. simpl. by rewrite !(left_id_L ∅ (∪)). }
  rewrite (IH (specStep acc l)), (IH (specStep (∅, ∅) l)). simpl.
  rewrite (specStep_union acc l). simpl.
  by rewrite !(assoc_L (∪)).
Qed.

(** Folding the same lines over their own result changes nothing. *)
Lemma fold_specStep_idemp lines acc :
  fold_left specStep lines (fold_left specStep lines acc)
  = fold_left specStep lines acc.
Proof.
  rewrite (fold_specStep_union lines (fold_left specStep lines acc)).
  rewrite (fold_specStep_union lines acc). simpl.
  by rewrite !(assoc_L (∪)), !(idemp_L (∪)).
Qed.

(** [With(l).Set(x)] on the gauge vectors of the program. *)
Lemma WithSet_scalar vec x :
  WithSet labels vec ∅ x = Ret (<[[] := x]> vec).
Proof. unfold WithSet. by rewrite map_size_empty. Qed.

Lemma WithSet_info vec version pid x :
  ValidString version = true -> ValidString pid = true ->
  WithSet infoLabels vec
    (<["katsubushi_version" := version]> (<["katsubushi_pid" := pid]> ∅)) x
  = Ret (<[[version; pid] := x]> vec).
Proof.
  intros Hv Hp. unfold WithSet.
  rewrite map_size_insert_None by done.
  rewrite map_size_insert_None by done.
  rewrite map_size_empty. simpl.
  rewrite lookup_insert_eq. simpl.
  rewrite lookup_insert_ne by done. rewrite lookup_insert_eq. simpl.
  by rewrite Hv, Hp.
Qed.

(** ** The claims *)

(** C1, where the code departs from the claim. A line whose first token is
    [STAT] and that has fewer than three tokens is not ignored: the loop
    body panics with an index out of range, [res[1]] on one token and
    [res[2]] on two, and so does the fetch once the scanner reaches the
    line, and with it the turn of the poll loop. *)
Theorem short_STAT_line_panics pre s e post final :
  bodyLines pre ->
  Split s " " !! 0 = Some "STAT" ->
  length (Split s " ") < 3 ->
  let n := length (Split s " ") in
  let d := Connected (mkConn (pre ++ (s, e) :: post) final) in
  (forall info stats, loopBody info stats s = Panic (IndexOutOfRange n n))
  /\ getKatsubushiStats d = Panic (IndexOutOfRange n n)
  /\ forall st, iteration d st = Panic (IndexOutOfRange n n).
Proof.
  intros Hpre H0 Hlen n d.
  assert (Hb : forall info stats, loopBody info stats s = Panic (IndexOutOfRange n n)).
  { intros info stats. subst n.
    destruct (Split s " ") as [|t [|k [|v more]]] eqn:E; simpl in *; [done| | |lia].
    - injection H0 as ->. by apply loopBody_short1.
    - injection H0 as ->. by eapply loopBody_short2. }
  assert (Hs : s <> "END").
  { intros ->. by vm_compute in H0. }
  assert (Hg : getKatsubushiStats d = Panic (IndexOutOfRange n n)).
  { by apply getKatsubushiStats_Panic. }
  split; [done|]. split; [done|].
  intros st. unfold iteration. by rewrite Hg.
Qed.

(** C2, as amended. Not every reply that holds such a line aborts with its
    error: a line after the first [END] is never read, and of two such lines
    the first decides. What holds is this. In a reply whose earlier lines are
    well formed and hold no [END], a line [STAT key value ...] with a key
    other than [pid] and [version] and a value that [ParseFloat] refuses makes
    [getKatsubushiStats] return that error with two nil maps, whatever
    follows the line; the turn of the poll loop then logs the error, sleeps
    the retry delay and leaves every gauge as it was. *)
Theorem parse_failure_aborts_fetch pre s e post final k v more f err st :
  bodyLines pre ->
  Split s " " = "STAT" :: k :: v :: more ->
  k <> "pid" -> k <> "version" ->
  ParseFloat v = (f, Some err) ->
  let d := Connected (mkConn (pre ++ (s, e) :: post) final) in
  getKatsubushiStats d = Ret (None, None, Some err)
  /\ iteration d st
     = Ret {| gauges := gauges st;
              trace := trace st ++ [LogErrorln err; Sleep 1000000000] |}.
Proof.
  intros Hpre E Hpid Hver Hf d.
  assert (Hg : getKatsubushiStats d = Ret (None, None, Some err)).
  { apply getKatsubushiStats_Return; [done|by eapply STAT_line_not_END|].
    intros info stats. by eapply loopBody_bad. }
  split; [done|]. unfold iteration. by rewrite Hg.
Qed.

(** C3. After a fetch that returns no error, when [version] or [pid] is
    missing from InfoFields or is the empty string, the turn of the poll loop
    sets no gauge: it logs the retry message, sleeps the retry delay of one
    second, and the loop goes on from a state whose gauges are unchanged. *)
Theorem empty_identity_not_published d info stats st ds :
  getKatsubushiStats d = Ret (info, stats, None) ->
  fieldEmpty info "version" \/ fieldEmpty info "pid" ->
  let st' := {| gauges := gauges st;
                trace := trace st
                         ++ [LogInfo "Retry since info(version or pid) is empty";
                             Sleep 1000000000] |} in
  iteration d st = Ret st'
  /\ pollLoop (d :: ds) st = pollLoop ds st'.
Proof.
  intros Hg Hempty st'.
  assert (Hi : iteration d st = Ret st').
  { unfold iteration. rewrite Hg. simpl.
    destruct Hempty as [H|H]; apply fieldEmpty_map_index in H; rewrite H; simpl;
      [done|by rewrite orb_true_r]. }
  split; [done|]. simpl. by rewrite Hi.
Qed.

(** C4. A line [STAT key value ...] with key [pid] or [version] changes
    InfoFields at that key only and leaves StatFields as it was; with another
    key and a numeric value it changes StatFields at that key only and leaves
    InfoFields as it was. So in the maps of every reply parsed, the keys of
    InfoFields are among [pid] and [version], each with the value of a [STAT]
    line of the reply, and StatFields holds neither [pid] nor [version], each
    of its keys having the number of a [STAT] line of the reply. *)
Theorem info_and_stats_keys_apart :
  (forall info stats s k v more,
     Split s " " = "STAT" :: k :: v :: more ->
     k = "pid" \/ k = "version" ->
     loopBody info stats s = Ret (Next (<[k := v]> info) stats))
  /\ (forall info stats s k v more f,
        Split s " " = "STAT" :: k :: v :: more ->
        k <> "pid" -> k <> "version" ->
        ParseFloat v = (f, None) ->
        loopBody info stats s = Ret (Next info (<[k := f]> stats)))
  /\ (forall d info stats err,
        getKatsubushiStats d = Ret (Some info, Some stats, err) ->
        exists c, d = Connected c
        /\ (forall k v, info !! k = Some v ->
              (k = "pid" \/ k = "version")
              /\ exists s more, s ∈ (scanned c).*1
                                /\ Split s " " = "STAT" :: k :: v :: more)
        /\ (forall k f, stats !! k = Some f ->
              k <> "pid" /\ k <> "version"
              /\ exists s v more, s ∈ (scanned c).*1
                                  /\ Split s " " = "STAT" :: k :: v :: more
                                  /\ ParseFloat v = (f, None))
        /\ stats !! "pid" = None /\ stats !! "version" = None).
Proof.
  split; [intros; by eapply loopBody_info|].
  split; [intros; by eapply loopBody_stat|].
  intros [c|e] info stats err Hg; [|done]. exists c. split; [done|].
  simpl in Hg. apply scanLoop_sources in Hg as [HI HS].
  assert (HS' : forall k f, stats !! k = Some f ->
            k <> "pid" /\ k <> "version"
            /\ exists s v more, s ∈ (scanned c).*1
                                /\ Split s " " = "STAT" :: k :: v :: more
                                /\ ParseFloat v = (f, None)).
  { intros k f Hkf. by destruct (HS k f Hkf) as [?|?]. }
  split; [|split; [done|]].
  - intros k v Hkv. by destruct (HI k v Hkv) as [?|?].
  - split.
    + destruct (stats !! "pid") as [f|] eqn:E; [|done].
      by destruct (HS' _ _ E) as (? & _).
    + destruct (stats !! "version") as [f|] eqn:E; [|done].
      by destruct (HS' _ _ E) as (_ & ? & _).
Qed.

(** C5. On a turn that publishes (the fetch returned no error, [version] and
    [pid] are not empty and pass as label values), each of the six scalar
    gauges is set to the value of its key in this reply's StatFields, and to
    zero when the key is absent from it, whatever the gauge held before. *)
Theorem absent_stat_published_as_zero d info stats st :
  getKatsubushiStats d = Ret (info, stats, None) ->
  map_index "" info "version" <> "" ->
  map_index "" info "pid" <> "" ->
  ValidString (map_index "" info "version") = true ->
  ValidString (map_index "" info "pid") = true ->
  exists g,
    iteration d st
    = Ret {| gauges := g; trace := trace st ++ [Sleep (Seconds metricsInterval)] |}
    /\ Forall (fun kg : string * (Gauges -> GaugeVec) =>
                 kg.2 g !! [] = Some (map_index 0%float stats kg.1)
                 /\ (statAbsent stats kg.1 -> kg.2 g !! [] = Some 0%float))
              scalarGauges.
Proof.
  intros Hg Hver Hpid Vver Vpid.
  unfold iteration. rewrite Hg. simpl.
  rewrite !String_eqb_false by done. simpl.
  unfold publish.
  rewrite (WithSet_info _ _ _ _ Vver Vpid). simpl.
  rewrite !WithSet_scalar. simpl.
  eexists. split; [done|].
  unfold scalarGauges.
  repeat apply Forall_cons_2; try apply Forall_nil_2; simpl;
    (split; [by rewrite lookup_insert_eq|]);
    intros Ha; by rewrite lookup_insert_eq, (statAbsent_map_index _ _ Ha).
Qed.

(** C6. A line that is not [END] and whose first token is not [STAT] is
    ignored: the loop body returns the two maps as they were, without error,
    and a reply parses as it does with the line taken out. *)
Theorem non_STAT_line_ignored s :
  s <> "END" ->
  Split s " " !! 0 <> Some "STAT" ->
  (forall info stats, loopBody info stats s = Ret (Next info stats))
  /\ forall pre e post final,
       getKatsubushiStats (Connected (mkConn (pre ++ (s, e) :: post) final))
       = getKatsubushiStats (Connected (mkConn (pre ++ post) final)).
Proof.
  intros Hs H0.
  assert (Hb : forall info stats, loopBody info stats s = Ret (Next info stats)).
  { intros info stats. by apply loopBody_other. }
  split; [done|]. intros pre e post final. simpl.
  generalize (∅ : gmap string string) (∅ : gmap string float64).
  induction pre as [|[s0 e0] pre IH]; intros info stats.
  - simpl. rewrite String_eqb_false by done. by rewrite Hb.
  - simpl. destruct (String.eqb s0 "END"); [done|].
    destruct (loopBody info stats s0) as [[info' stats'|r]|p]; simpl; [|done..].
    apply IH.
Qed.

(** C7, as amended. Not every stream that ends without [END] parses
    without error: a value that [ParseFloat] refuses aborts the fetch there
    as anywhere. What holds is this. A stream that ends (no read error)
    without a line [END] parses as the same stream followed by [END]; when
    its lines are well formed the fetch returns no error, and returns the
    maps accumulated over all the lines. *)
Theorem end_of_stream_without_END toks :
  Forall (fun t => t.1 <> "END") toks ->
  (forall final,
     getKatsubushiStats (Connected (mkConn toks None))
     = getKatsubushiStats (Connected (mkConn (toks ++ [("END", None)]) final)))
  /\ (Forall (fun t => wellFormedLine t.1 = true) toks ->
      getKatsubushiStats (Connected (mkConn toks None))
      = Ret (Some (accumulated toks.*1).1, Some (accumulated toks.*1).2, None)).
Proof.
  intros Hend. split.
  - intros final. simpl. apply scanLoop_END_appended.
  - intros Hwf.
    assert (Hb : bodyLines toks).
    { unfold bodyLines. rewrite Forall_forall in *. by split; auto. }
    rewrite <- (app_nil_r toks) at 1.
    by rewrite getKatsubushiStats_body.
Qed.

(** C8. Each call of [getKatsubushiStats] starts from two empty maps, so
    what it returns depends on the reply alone: a reply of well-formed lines
    ended by [END] parses to the maps accumulated over those lines. Parsing
    the same reply a second time, even into the maps the first parse
    produced, returns the same InfoFields and the same StatFields. *)
Theorem reparsing_is_idempotent pre e post final :
  bodyLines pre ->
  let toks := (pre ++ ("END", e) :: post)%list in
  let info := (accumulated pre.*1).1 in
  let stats := (accumulated pre.*1).2 in
  getKatsubushiStats (Connected (mkConn toks final)) = Ret (Some info, Some stats, e)
  /\ scanLoop toks final info stats = Ret (Some info, Some stats, e).
Proof.
  intros Hpre toks info stats. subst toks. split.
  - by rewrite getKatsubushiStats_body.
  - rewrite scanLoop_bodyLines by done. simpl.
    subst info stats. unfold accumulated.
    replace ((fold_left specStep pre.*1 (∅, ∅)).1, (fold_left specStep pre.*1 (∅, ∅)).2)
      with (fold_left specStep pre.*1 (∅, ∅)) by by destruct (fold_left specStep pre.*1 (∅, ∅)).
    by rewrite fold_specStep_idemp.
Qed.

(** C9. The three error returns. A failed dial returns two nil maps and the
    error; so does a value that [ParseFloat] refuses; a read error of the
    scanner returns the error together with the two maps accumulated so far,
    which are not nil. *)
Theorem error_return_shapes :
  (forall err, getKatsubushiStats (DialFailed err) = Ret (None, None, Some err))
  /\ (forall pre s e post final k v more f err,
        bodyLines pre ->
        Split s " " = "STAT" :: k :: v :: more ->
        k <> "pid" -> k <> "version" ->
        ParseFloat v = (f, Some err) ->
        getKatsubushiStats (Connected (mkConn (pre ++ (s, e) :: post) final))
        = Ret (None, None, Some err))
  /\ (forall toks err,
        bodyLines toks ->
        getKatsubushiStats (Connected (mkConn toks (Some err)))
        = Ret (Some (accumulated toks.*1).1, Some (accumulated toks.*1).2, Some err)).
Proof.
  split; [done|]. split.
  - intros pre s e post final k v more f err Hpre E Hpid Hver Hf.
    apply getKatsubushiStats_Return; [done|by eapply STAT_line_not_END|].
    intros info stats. by eapply loopBody_bad.
  - intros toks err Hb. rewrite <- (app_nil_r toks) at 1.
    by rewrite getKatsubushiStats_body.
Qed.

(** C10. Splitting a line on single spaces yields at least one token, the
    empty line included, so [res[0]] never panics; and when that token is not
    [STAT] the loop body hands the maps on untouched, also when the line has
    that one token only, where [res[1]] would panic. *)
Theorem first_token_always_exists s :
  Split s " " !! 0 <> Some "STAT" ->
  (exists t ts, Split s " " = t :: ts /\ index (Split s " ") 0 = Ret t)
  /\ Split "" " " = [""]
  /\ (forall info stats, loopBody info stats s = Ret (Next info stats))
  /\ (length (Split s " ") = 1 ->
      index (Split s " ") 1 = Panic (IndexOutOfRange 1 1)).
Proof.
  intros H0. split; [|split; [done|split]].
  - destruct (Split_cons s " ") as (t & ts & E). exists t, ts.
    split; [done|]. unfold index. by rewrite E.
  - intros info stats. by apply loopBody_other.
  - intros Hlen. unfold index.
    by destruct (Split s " ") as [|t [|k rest]].
Qed.

(** ** Further properties of the poll loop *)

(** X2. While the target cannot be dialled the loop retries every second and
    never touches a gauge: [n] failed dials leave the gauges as they were
    and add [n] times an error line and a sleep of one second. *)
Theorem dial_failure_retries err n st :
  pollLoop (replicate n (DialFailed err)) st
  = Ret {| gauges := gauges st;
           trace := trace st
                    ++ mjoin (replicate n [LogErrorln err; Sleep 1000000000]) |}.
Proof.
  revert st. induction n as [|n IH]; intros st; simpl.
  - rewrite app_nil_r. by destruct st.
  - rewrite IH. simpl. by rewrite <- app_assoc.
Qed.

(** ** The fetch, read back from its outcome *)

Lemma loopBody_Panic_inv info stats s p :
  loopBody info stats s = Panic p ->
  Split s " " !! 0 = Some "STAT" /\ length (Split s " ") < 3
  /\ p = IndexOutOfRange (length (Split s " ")) (length (Split s " ")).
Proof.
  unfold loopBody, index.
  destruct (Split_cons s " ") as (t & rest & ->). simpl.
  destruct (String.eqb_spec t "STAT") as [->|Ht]; [|done].
  destruct rest as [|k [|v more]]; simpl.
  - intros [= <-]. split; [done|]. split; [lia|done].
  - destruct (String.eqb k "pid" || String.eqb k "version"); simpl;
      intros [= <-]; (split; [done|]); (split; [lia|done]).
  - destruct (String.eqb k "pid" || String.eqb k "version"); simpl; [done|].
    by destruct (ParseFloat v) as [f [err|]].
Qed.

Lemma loopBody_Return_bad info stats s r :
  loopBody info stats s = Ret (Return r) ->
  exists k v more f err,
    Split s " " = "STAT" :: k :: v :: more /\ k <> "pid" /\ k <> "version"
    /\ ParseFloat v = (f, Some err) /\ r = (None, None, Some err).
Proof.
  unfold loopBody, index.
  destruct (Split_cons s " ") as (t & rest & ->). simpl.
  destruct (String.eqb_spec t "STAT") as [->|Ht]; [|done].
  destruct rest as [|k [|v more]]; simpl; [done| |].
  { by destruct (String.eqb k "pid" || String.eqb k "version"). }
  destruct (String.eqb_spec k "pid") as [->|Hpid]; simpl; [done|].
  destruct (String.eqb_spec k "version") as [->|Hver]; simpl; [done|].
  destruct (ParseFloat v) as [f [err|]] eqn:Ef; simpl; [|done].
  intros [= <-]. by exists k, v, more, f, err.
Qed.

Lemma loopBody_Next_wellFormed info stats s info' stats' :
  loopBody info stats s = Ret (Next info' stats') ->
  wellFormedLine s = true /\ specStep (info, stats) s = (info', stats').
Proof.
  intros Hb.
  assert (Hwf : wellFormedLine s = true).
  { apply (wellFormedLine_iff info stats). by eauto. }
  split; [done|]. rewrite (loopBody_wellFormed _ _ _ Hwf) in Hb.
  injection Hb as <- <-. by destruct (specStep (info, stats) s).
Qed.

Lemma scanLoop_Some_inv toks final info0 stats0 info stats err :
  scanLoop toks final info0 stats0 = Ret (Some info, Some stats, err) ->
  exists pre,
    bodyLines pre
    /\ ((toks = pre /\ err = final) \/ exists post, toks = (pre ++ ("END", err) :: post)%list)
    /\ fold_left specStep pre.*1 (info0, stats0) = (info, stats).
Proof.
  revert info0 stats0.
  induction toks as [|[s e] toks IH]; intros info0 stats0; simpl.
  { intros [= <- <- <-]. exists []. split; [by apply Forall_nil_2|]. by split; [left|]. }
  destruct (String.eqb_spec s "END") as [->|Hs].
  { intros [= <- <- <-]. exists []. split; [by apply Forall_nil_2|].
    split; [right; by exists toks|done]. }
  destruct (loopBody info0 stats0 s) as [[info' stats'|r]|p] eqn:Hb; simpl; [| |done].
  2:{ apply loopBody_Return_inv in Hb as [err' ->]. done. }
  intros Hrest. apply IH in Hrest as (pre & Hpre & Hshape & Hfold).
  apply loopBody_Next_wellFormed in Hb as [Hwf Hstep].
  exists ((s, e) :: pre). split; [by apply Forall_cons_2|]. split.
  - destruct Hshape as [[-> ->]|[post ->]]; [by left|right; by exists post].
  - simpl. by rewrite Hstep.
Qed.

Lemma scanLoop_Panic_inv toks final info0 stats0 p :
  scanLoop toks final info0 stats0 = Panic p ->
  exists pre s e post,
    toks = (pre ++ (s, e) :: post)%list /\ bodyLines pre /\ s <> "END"
    /\ Split s " " !! 0 = Some "STAT" /\ length (Split s " ") < 3
    /\ p = IndexOutOfRange (length (Split s " ")) (length (Split s " ")).
Proof.
  revert info0 stats0.
  induction toks as [|[s e] toks IH]; intros info0 stats0; simpl; [done|].
  destruct (String.eqb_spec s "END") as [->|Hs]; [done|].
  destruct (loopBody info0 stats0 s) as [[info' stats'|r]|p'] eqn:Hb; simpl; [|done|].
  - intros Hrest. apply IH in Hrest as (pre & s1 & e1 & post & -> & Hpre & H1).
    apply loopBody_Next_wellFormed in Hb as [Hwf _].
    exists ((s, e) :: pre), s1, e1, post.
    split; [done|]. split; [by apply Forall_cons_2|done].
  - intros [= <-]. apply loopBody_Panic_inv in Hb.
    exists [], s, e, toks. split; [done|]. split; [by apply Forall_nil_2|done].
Qed.

Lemma scanLoop_None_inv toks final info0 stats0 stats oerr :
  scanLoop toks final info0 stats0 = Ret (None, stats, oerr) ->
  stats = None
  /\ exists pre s e post k v more f err,
       oerr = Some err /\ toks = (pre ++ (s, e) :: post)%list /\ bodyLines pre
       /\ Split s " " = "STAT" :: k :: v :: more /\ k <> "pid" /\ k <> "version"
       /\ ParseFloat v = (f, Some err).
Proof.
  revert info0 stats0.
  induction toks as [|[s e] toks IH]; intros info0 stats0; simpl; [done|].
  destruct (String.eqb_spec s "END") as [->|Hs]; [done|].
  destruct (loopBody info0 stats0 s) as [[info' stats'|r]|p'] eqn:Hb; simpl; [| |done].
  - intros Hrest.
    apply IH in Hrest
      as (Hst & pre & s1 & e1 & post & k & v & more & f & err & Herr & Htoks & Hpre & H1).
    apply loopBody_Next_wellFormed in Hb as [Hwf _].
    split; [done|]. exists ((s, e) :: pre), s1, e1, post, k, v, more, f, err.
    split; [done|]. split; [by rewrite Htoks|]. split; [by apply Forall_cons_2|done].
  - intros [= ->].
    apply loopBody_Return_bad in Hb as (k & v & more & f & err & E & Hp & Hv & Hf & Hr).
    injection Hr as -> ->.
    split; [done|]. exists [], s, e, toks, k, v, more, f, err.
    split; [done|]. split; [done|]. split; [by apply Forall_nil_2|done].
Qed.

(** The maps a fetch returns are never nil one without the other. *)
Lemma scanLoop_Ret_shape toks final info0 stats0 r :
  scanLoop toks final info0 stats0 = Ret r ->
  (exists info stats err, r = (Some info, Some stats, err))
  \/ exists err, r = (None, None, Some err).
Proof.
  revert info0 stats0.
  induction toks as [|[s e] toks IH]; intros info0 stats0; simpl.
  { intros [= <-]. left. by eauto. }
  destruct (String.eqb s "END"); [intros [= <-]; left; by eauto|].
  destruct (loopBody info0 stats0 s) as [[info' stats'|r']|p'] eqn:Hb; simpl; [| |done].
  - apply IH.
  - intros [= ->]. apply loopBody_Return_inv in Hb as [err ->]. right. by eauto.
Qed.

(** X3. A fetch that returns two maps read a reply whose lines, up to the first
    [END] or to the end of the stream, are all well formed, and the maps are
    those accumulated over exactly these lines; the error is what the scanner
    reports at that point. *)
Theorem fetch_maps_read_back d info stats err :
  getKatsubushiStats d = Ret (Some info, Some stats, err) ->
  exists c pre,
    d = Connected c /\ bodyLines pre
    /\ ((scanned c = pre /\ err = scanErr c)
        \/ exists post, scanned c = (pre ++ ("END", err) :: post)%list)
    /\ accumulated pre.*1 = (info, stats).
Proof.
  destruct d as [c|e]; [|done]. simpl. intros Hs.
  apply scanLoop_Some_inv in Hs as (pre & Hpre & Hshape & Hfold).
  by exists c, pre.
Qed.

(** X4. A fetch panics only in one way: the scanner reached, after well-formed
    lines and before any [END], a [STAT] line of fewer than three tokens. *)
Theorem fetch_panic_read_back d p :
  getKatsubushiStats d = Panic p ->
  exists c pre s e post,
    d = Connected c /\ scanned c = (pre ++ (s, e) :: post)%list /\ bodyLines pre
    /\ s <> "END" /\ Split s " " !! 0 = Some "STAT" /\ length (Split s " ") < 3
    /\ p = IndexOutOfRange (length (Split s " ")) (length (Split s " ")).
Proof.
  destruct d as [c|e]; [|done]. simpl. intros Hs.
  apply scanLoop_Panic_inv in Hs as (pre & s & e & post & H).
  by exists c, pre, s, e, post.
Qed.

(** X5. A fetch that returns a nil InfoFields returns a nil StatFields and an
    error with it, and comes from one of two places: the dial failed with
    that error, or the scanner reached, after well-formed lines and before
    any [END], a [STAT] line whose key is not [pid] or [version] and whose
    value [ParseFloat] refused with that error. *)
Theorem fetch_nil_read_back d stats oerr :
  getKatsubushiStats d = Ret (None, stats, oerr) ->
  stats = None
  /\ exists err,
       oerr = Some err
       /\ (d = DialFailed err
           \/ exists c pre s e post k v more f,
                d = Connected c /\ scanned c = (pre ++ (s, e) :: post)%list /\ bodyLines pre
                /\ Split s " " = "STAT" :: k :: v :: more
                /\ k <> "pid" /\ k <> "version" /\ ParseFloat v = (f, Some err)).
Proof.
  destruct d as [c|e]; simpl.
  - intros Hs.
    apply scanLoop_None_inv in Hs
      as (Hst & pre & s & e & post & k & v & more & f & err & Herr & H).
    split; [done|]. exists err. split; [done|]. right.
    by exists c, pre, s, e, post, k, v, more, f.
  - intros [= <- <-]. split; [done|]. exists e. split; [done|]. by left.
Qed.

(** X1. Every fetch ends in one of four ways: two maps (with or without an
    error), two nil maps with an error, or one of the two index panics.
    It never returns a nil error with a nil map, nor one map without the
    other. *)
Theorem fetch_outcome_shapes d :
  (exists info stats err, getKatsubushiStats d = Ret (Some info, Some stats, err))
  \/ (exists err, getKatsubushiStats d = Ret (None, None, Some err))
  \/ getKatsubushiStats d = Panic (IndexOutOfRange 1 1)
  \/ getKatsubushiStats d = Panic (IndexOutOfRange 2 2).
Proof.
  destruct (getKatsubushiStats d) as [r|p] eqn:Hg.
  - destruct d as [c|e].
    + simpl in Hg. apply scanLoop_Ret_shape in Hg as [(i & s & err & ->)|(err & ->)].
      * left. by eauto.
      * right; left. by eauto.
    + injection Hg as <-. right; left. by eauto.
  - destruct d as [c|e0]; [|done]. simpl in Hg.
    apply scanLoop_Panic_inv in Hg as (pre & s & e & post & _ & _ & _ & H0 & Hlen & ->).
    destruct (Split s " ") as [|t [|k [|v more]]]; simpl in *; [done| | |lia].
    + right; right; by left.
    + right; right; by right.
Qed.

(** X6. Nothing that follows the first [END] is read: two replies that agree up
    to and including an [END] line give the same outcome, whatever comes
    after it, malformed lines and a read error included. *)
Theorem lines_after_END_never_read pre e post post' final final' :
  getKatsubushiStats (Connected (mkConn (pre ++ ("END", e) :: post) final))
  = getKatsubushiStats (Connected (mkConn (pre ++ ("END", e) :: post') final')).
Proof.
  simpl. generalize (∅ : gmap string string) (∅ : gmap string float64).
  induction pre as [|[s0 e0] pre IH]; intros info stats; simpl; [done|].
  destruct (String.eqb s0 "END"); [done|].
  destruct (loopBody info stats s0) as [[info' stats'|r]|p]; simpl; [|done..].
  apply IH.
Qed.

(** ** Tokens *)

Lemma Split_no_sep (s : string) (sep : ascii) :
  Forall (fun t => Count t sep = 0) (Split s sep).
Proof.
  induction s as [|c s IH]; simpl.
  { by apply Forall_cons_2; [|apply Forall_nil_2]. }
  destruct (Ascii.eqb c sep) eqn:Ec.
  { by apply Forall_cons_2. }
  destruct (Split s sep) as [|t ts]; simpl.
  - apply Forall_cons_2; [|by apply Forall_nil_2]. simpl. by rewrite Ec.
  - apply Forall_cons_1 in IH as [Ht Hts].
    apply Forall_cons_2; [|done]. simpl. by rewrite Ec.
Qed.

Lemma Split_one_token (t : string) (sep : ascii) :
  Count t sep = 0 -> Split t sep = [t].
Proof.
  induction t as [|c t IH]; simpl; [done|].
  destruct (Ascii.eqb c sep); simpl; [done|].
  intros H. by rewrite (IH H).
Qed.

Lemma Split_app_sep (t r : string) (sep : ascii) :
  Count t sep = 0 -> Split (t ++ String sep r) sep = t :: Split r sep.
Proof.
  induction t as [|c t IH]; simpl.
  - intros _. by rewrite Ascii.eqb_refl.
  - destruct (Ascii.eqb c sep); simpl; [done|].
    intros H. by rewrite (IH H).
Qed.

Lemma Split_Join (ts : list string) (sep : ascii) :
  ts <> [] -> Forall (fun t => Count t sep = 0) ts ->
  Split (Join ts sep) sep = ts.
Proof.
  induction ts as [|t ts IH]; [done|]. intros _ Hall.
  apply Forall_cons_1 in Hall as [Ht Hts].
  destruct ts as [|t' ts].
  - by apply Split_one_token.
  - change (Join (t :: t' :: ts) sep) with (t ++ String sep (Join (t' :: ts) sep)).
    rewrite Split_app_sep by done. by rewrite IH.
Qed.

(** X11. [Split] and [Join] are inverse to each other: joining the tokens of a
    string gives the string back, and splitting the join of tokens that hold
    no separator gives the tokens back. A string with [n] separators has
    [n + 1] tokens, none of which holds the separator. *)
Theorem Split_Join_inverse (sep : ascii) :
  (forall s, Join (Split s sep) sep = s
             /\ length (Split s sep) = S (Count s sep)
             /\ Forall (fun t => Count t sep = 0) (Split s sep))
  /\ (forall ts, ts <> [] -> Forall (fun t => Count t sep = 0) ts ->
                 Split (Join ts sep) sep = ts).
Proof.
  split.
  - intros s. split; [apply Join_Split|]. split; [apply Split_length|apply Split_no_sep].
  - intros ts. apply Split_Join.
Qed.

(** X9. Whatever a fetch stores came out of [Split]: no key of InfoFields or of
    StatFields and no value of InfoFields holds a space, and every number of
    StatFields is what [ParseFloat] made of a token without a space. *)
Theorem stored_tokens_hold_no_space d info stats err :
  getKatsubushiStats d = Ret (Some info, Some stats, err) ->
  (forall k v, info !! k = Some v -> Count k " " = 0 /\ Count v " " = 0)
  /\ (forall k f, stats !! k = Some f ->
        Count k " " = 0
        /\ exists v, Count v " " = 0 /\ ParseFloat v = (f, None)).
Proof.
  destruct d as [c|e]; [|done]. simpl. intros Hs.
  apply scanLoop_sources in Hs as [HI HS]. split.
  - intros k v Hkv. destruct (HI k v Hkv) as [?|(_ & s & more & _ & E)]; [done|].
    pose proof (Split_no_sep s " ") as Hall. rewrite E in Hall.
    apply Forall_cons_1 in Hall as [_ Hall].
    apply Forall_cons_1 in Hall as [Hk Hall].
    by apply Forall_cons_1 in Hall as [Hv _].
  - intros k f Hkf.
    destruct (HS k f Hkf) as [?|(_ & _ & s & v & more & _ & E & Hf)]; [done|].
    pose proof (Split_no_sep s " ") as Hall. rewrite E in Hall.
    apply Forall_cons_1 in Hall as [_ Hall].
    apply Forall_cons_1 in Hall as [Hk Hall].
    apply Forall_cons_1 in Hall as [Hv _].
    split; [done|]. by exists v.
Qed.

(** X10. Only the first three tokens of a line are read: a line does to the maps
    exactly what the line cut after its third token does. So a value is cut
    at its first space. *)
Theorem line_read_up_to_third_token info stats s t0 t1 t2 more :
  Split s " " = t0 :: t1 :: t2 :: more ->
  loopBody info stats s = loopBody info stats (Join [t0; t1; t2] " ").
Proof.
  intros E.
  pose proof (Split_no_sep s " ") as Hall. rewrite E in Hall.
  apply Forall_cons_1 in Hall as [H0 Hall].
  apply Forall_cons_1 in Hall as [H1 Hall].
  apply Forall_cons_1 in Hall as [H2 _].
  assert (E' : Split (Join [t0; t1; t2] " ") " " = [t0; t1; t2]).
  { apply Split_Join; [done|]. by repeat apply Forall_cons_2; try apply Forall_nil_2. }
  unfold loopBody, index. by rewrite E, E'.
Qed.

(** ** The last line for a key *)

Lemma specStep_other acc s k :
  lineKey s <> Some k ->
  (specStep acc s).1 !! k = acc.1 !! k /\ (specStep acc s).2 !! k = acc.2 !! k.
Proof.
  unfold lineKey, specStep.
  destruct (Split s " ") as [|t [|k' [|v more]]]; [done..|].
  destruct (String.eqb t "STAT"); [|done]. intros Hk.
  assert (k' <> k) by (by intros ->).
  destruct (String.eqb k' "pid" || String.eqb k' "version"); simpl;
    by rewrite lookup_insert_ne.
Qed.

Lemma fold_specStep_other lines acc k :
  Forall (fun l => lineKey l <> Some k) lines ->
  (fold_left specStep lines acc).1 !! k = acc.1 !! k
  /\ (fold_left specStep lines acc).2 !! k = acc.2 !! k.
Proof.
  intros Hall. revert acc.
  induction Hall as [|l lines Hl _ IH]; intros acc; simpl; [done|].
  destruct (IH (specStep acc l)) as [-> ->]. by apply specStep_other.
Qed.

Lemma wellFormedLine_numeric s k v more :
  wellFormedLine s = true ->
  Split s " " = "STAT" :: k :: v :: more -> k <> "pid" -> k <> "version" ->
  exists f, ParseFloat v = (f, None).
Proof.
  unfold wellFormedLine. intros Hwf E Hp Hv. rewrite E in Hwf. simpl in Hwf.
  rewrite !String_eqb_false in Hwf by done. simpl in Hwf.
  destruct (ParseFloat v) as [f [err|]]; [done|]. by exists f.
Qed.

(** X7. When a key comes on several lines the last one counts: in a reply of
    well-formed lines ended by [END], the value returned for a key is that of
    a [STAT] line for the key after which no line sets the key again. *)
Theorem last_STAT_line_wins l1 s e l2 e' post final k v more :
  bodyLines (l1 ++ (s, e) :: l2) ->
  Split s " " = "STAT" :: k :: v :: more ->
  Forall (fun t => lineKey t.1 <> Some k) l2 ->
  exists info stats,
    getKatsubushiStats
      (Connected (mkConn ((l1 ++ (s, e) :: l2) ++ ("END", e') :: post) final))
    = Ret (Some info, Some stats, e')
    /\ (k = "pid" \/ k = "version" -> info !! k = Some v)
    /\ (k <> "pid" -> k <> "version" ->
        exists f, ParseFloat v = (f, None) /\ stats !! k = Some f).
Proof.
  intros Hbody E Hlater.
  rewrite getKatsubushiStats_body by done. simpl.
  eexists _, _. split; [done|].
  assert (Hwf : wellFormedLine s = true).
  { apply Forall_app in Hbody as [_ Hb]. apply Forall_cons_1 in Hb as [[_ ?] _]. done. }
  unfold accumulated. rewrite fmap_app, fold_left_app, fmap_cons. cbn [fold_left fst].
  assert (Hl2 : Forall (fun l => lineKey l <> Some k) l2.*1).
  { by apply Forall_fmap. }
  set (acc := fold_left specStep l1.*1 (∅, ∅)).
  destruct (fold_specStep_other _ (specStep acc s) _ Hl2) as [-> ->].
  unfold specStep. rewrite E. simpl. split.
  - intros Hk.
    assert (String.eqb k "pid" || String.eqb k "version" = true) as ->
      by (by destruct Hk as [-> | ->]).
    simpl. by rewrite lookup_insert_eq.
  - intros Hp Hv. rewrite !String_eqb_false by done. simpl.
    destruct (wellFormedLine_numeric _ _ _ _ Hwf E Hp Hv) as [f Hf].
    exists f. split; [done|]. by rewrite lookup_insert_eq, Hf.
Qed.

Lemma specStep_no_key acc s : lineKey s = None -> specStep acc s = acc.
Proof.
  unfold lineKey, specStep.
  destruct (Split s " ") as [|t [|k [|v more]]]; [done..|].
  by destruct (String.eqb t "STAT").
Qed.

Lemma specStep_comm acc s1 s2 :
  (forall k, lineKey s1 = Some k -> lineKey s2 <> Some k) ->
  specStep (specStep acc s1) s2 = specStep (specStep acc s2) s1.
Proof.
  intros Hk.
  destruct (lineKey s1) as [k1|] eqn:E1; [|by rewrite !(specStep_no_key _ s1)].
  destruct (lineKey s2) as [k2|] eqn:E2; [|by rewrite !(specStep_no_key _ s2)].
  assert (Hne : k1 <> k2) by (intros ->; by apply (Hk k2)).
  clear Hk. revert E1 E2. unfold lineKey, specStep.
  destruct (Split s1 " ") as [|t1 [|k1' [|v1 more1]]]; [done..|].
  destruct (Split s2 " ") as [|t2 [|k2' [|v2 more2]]]; [done..|].
  destruct (String.eqb t1 "STAT"); [|done].
  destruct (String.eqb t2 "STAT"); [|done].
  intros [= ->] [= ->].
  destruct (String.eqb k1 "pid" || String.eqb k1 "version");
    destruct (String.eqb k2 "pid" || String.eqb k2 "version"); simpl;
    try done; by rewrite insert_insert_ne.
Qed.

(** X8. The order of two neighbouring well-formed lines does not matter unless
    both set the same key: the reply with the two lines exchanged gives the
    same outcome. *)
Theorem lines_for_other_keys_commute pre s1 e1 s2 e2 post final :
  bodyLines (pre ++ [(s1, e1); (s2, e2)]) ->
  (forall k, lineKey s1 = Some k -> lineKey s2 <> Some k) ->
  getKatsubushiStats (Connected (mkConn ((pre ++ [(s1, e1); (s2, e2)]) ++ post) final))
  = getKatsubushiStats (Connected (mkConn ((pre ++ [(s2, e2); (s1, e1)]) ++ post) final)).
Proof.
  intros Hbody Hk.
  assert (Hbody' : bodyLines (pre ++ [(s2, e2); (s1, e1)])).
  { apply Forall_app in Hbody as [Hpre H12]. apply Forall_app. split; [done|].
    apply Forall_cons_1 in H12 as [H1 H2]. apply Forall_cons_1 in H2 as [H2 _].
    by repeat apply Forall_cons_2; try apply Forall_nil_2. }
  rewrite !getKatsubushiStats_body by done.
  unfold accumulated. rewrite !fmap_app, !fold_left_app, !fmap_cons.
  cbn [fold_left fst fmap list_fmap].
  by rewrite specStep_comm.
Qed.

(** ** The turns of the poll loop *)

Lemma WithSet_info_refused vec version pid x :
  ValidString version && ValidString pid = false ->
  WithSet infoLabels vec
    (<["katsubushi_version" := version]> (<["katsubushi_pid" := pid]> ∅)) x
  = Panic (LabelPanic "label value is not valid UTF-8").
Proof.
  intros Hv. unfold WithSet.
  rewrite map_size_insert_None by done.
  rewrite map_size_insert_None by done.
  rewrite map_size_empty. simpl.
  rewrite lookup_insert_eq. simpl.
  rewrite lookup_insert_ne by done. rewrite lookup_insert_eq. simpl.
  rewrite andb_true_r. by rewrite Hv.
Qed.

Lemma publish_eq info stats g :
  publish info stats g
  = if ValidString (map_index "" info "version") && ValidString (map_index "" info "pid")
    then Ret (published info stats g)
    else Panic (LabelPanic "label value is not valid UTF-8").
Proof.
  unfold publish.
  destruct (ValidString (map_index "" info "version")
            && ValidString (map_index "" info "pid")) eqn:Hv.
  - apply andb_true_iff in Hv as [Hver Hpid].
    rewrite (WithSet_info _ _ _ _ Hver Hpid). simpl.
    by rewrite !WithSet_scalar.
  - by rewrite (WithSet_info_refused _ _ _ _ Hv).
Qed.

Lemma iteration_inv d st st' :
  iteration d st = Ret st' ->
  (exists ev,
     (ev = LogInfo "Retry since info(version or pid) is empty" \/ exists e, ev = LogErrorln e)
     /\ st' = {| gauges := gauges st; trace := trace st ++ [ev; Sleep 1000000000] |})
  \/ (exists info stats,
        getKatsubushiStats d = Ret (info, stats, None)
        /\ map_index "" info "version" <> "" /\ map_index "" info "pid" <> ""
        /\ st' = {| gauges := published info stats (gauges st);
                    trace := trace st ++ [Sleep (Seconds metricsInterval)] |}).
Proof.
  unfold iteration.
  destruct (getKatsubushiStats d) as [[[info stats] [e|]]|p]; simpl; [| |done].
  { intros [= <-]. left. exists (LogErrorln e). split; [right; by exists e|done]. }
  destruct (String.eqb_spec (map_index "" info "version") "") as [Hver|Hver]; simpl.
  { intros [= <-]. left. eexists. split; [by left|done]. }
  destruct (String.eqb_spec (map_index "" info "pid") "") as [Hpid|Hpid]; simpl.
  { intros [= <-]. left. eexists. split; [by left|done]. }
  rewrite publish_eq.
  destruct (ValidString (map_index "" info "version")
            && ValidString (map_index "" info "pid")); simpl; [|done].
  intros [= <-]. right. by exists info, stats.
Qed.

Lemma sleeps_app tr1 tr2 : sleeps (tr1 ++ tr2) = (sleeps tr1 ++ sleeps tr2)%list.
Proof. apply omap_app. Qed.





(** X13. The loop only ever adds to its trace, and every turn sleeps exactly
    once, one second or the poll interval: after the turns for the dials
    [ds], the trace has grown by as many sleeps as there were dials. *)
Theorem every_turn_sleeps_once ds st st' :
  pollLoop ds st = Ret st' ->
  exists added,
    trace st' = (trace st ++ added)%list
    /\ length (sleeps added) = length ds
    /\ Forall (fun z => z = 1000000000%Z \/ z = Seconds metricsInterval) (sleeps added).
Proof.
  revert st. induction ds as [|d ds IH]; intros st; simpl.
  { intros [= <-]. exists []. by rewrite app_nil_r. }
  destruct (iteration d st) as [st1|p] eqn:Hi; simpl; [|done].
  intros Hrest. destruct (IH _ Hrest) as (added & Htr & Hlen & Hall).
  apply iteration_inv in Hi as [(ev & Hev & ->)|(info & stats & _ & _ & _ & ->)];
    simpl in Htr.
  - exists ([ev; Sleep 1000000000] ++ added)%list.
    split; [by rewrite Htr, <- app_assoc|].
    rewrite sleeps_app.
    assert (sleeps [ev; Sleep 1000000000] = [1000000000%Z]) as ->.
    { by destruct Hev as [->|[e ->]]. }
    simpl. split; [by rewrite Hlen|]. apply Forall_cons_2; [by left|done].
  - exists ([Sleep (Seconds metricsInterval)] ++ added)%list.
    split; [by rewrite Htr, <- app_assoc|].
    rewrite sleeps_app. simpl. split; [by rewrite Hlen|].
    apply Forall_cons_2; [by right|done].
Qed.


(** X15. A [katsubushi_info] series, once set, is never taken back: whatever the
    later turns read, it is still there and still 1, also after the version
    or the pid changed and a new series was added beside it. *)
Theorem info_series_never_retracted ds st st' l :
  pollLoop ds st = Ret st' ->
  katsubushiInfo (gauges st) !! l = Some 1%float ->
  katsubushiInfo (gauges st') !! l = Some 1%float.
Proof.
  revert st. induction ds as [|d ds IH]; intros st; simpl.
  { by intros [= <-]. }
  destruct (iteration d st) as [st1|p] eqn:Hi; simpl; [|done].
  intros Hrest Hl. apply (IH _ Hrest).
  apply iteration_inv in Hi as [(ev & _ & ->)|(info & stats & _ & _ & _ & ->)];
    simpl; [done|].
  destruct (decide ([map_index "" info "version"; map_index "" info "pid"] = l))
    as [<-|Hne].
  - by rewrite lookup_insert_eq.
  - by rewrite lookup_insert_ne.
Qed.

(** X16. Reading the same reply on two turns in a row leaves the gauges after
    the second turn as they were after the first. *)
Theorem same_reply_twice_same_gauges d st st1 st2 :
  iteration d st = Ret st1 ->
  iteration d st1 = Ret st2 ->
  gauges st2 = gauges st1.
Proof.
  unfold iteration.
  destruct (getKatsubushiStats d) as [[[info stats] [e|]]|p]; simpl; [| |done].
  { by intros [= <-] [= <-]. }
  destruct (String.eqb (map_index "" info "version") ""
            || String.eqb (map_index "" info "pid") ""); simpl.
  { by intros [= <-] [= <-]. }
  rewrite !publish_eq.
  destruct (ValidString (map_index "" info "version")
            && ValidString (map_index "" info "pid")); simpl; [|done].
  intros [= <-] [= <-]. simpl. unfold published. simpl.
  by rewrite !insert_insert_eq.
Qed.

(** ** Durations *)

(** X17. [time.Duration(n) * time.Second] is [n] seconds as long as [n] is at most
    9223372036 in absolute value; it always fits 64 bits; and one second more
    wraps around to a negative duration. *)
Theorem Seconds_in_range (n : Z) :
  (- 2 ^ 63 <= Seconds n < 2 ^ 63)%Z
  /\ ((-9223372036 <= n <= 9223372036)%Z -> Seconds n = (n * 1000000000)%Z)
  /\ (Seconds 9223372037 < 0)%Z.
Proof.
  split; [|split].
  - unfold Seconds, wrap64.
    pose proof (Z.mod_pos_bound (wrap64 n * Second + 2 ^ 63) (2 ^ 64) eq_refl).
    unfold wrap64 in *. lia.
  - intros Hn. unfold Seconds, wrap64, Second.
    rewrite (Z.mod_small (n + 2 ^ 63) (2 ^ 64)) by lia.
    replace (n + 2 ^ 63 - 2 ^ 63)%Z with n by lia.
    rewrite Z.mod_small by lia. lia.
  - by vm_compute.
Qed.

(** ** Registration *)

Lemma mustRegisterAll_panic ds e :
  fold_left (fun acc d =>
               match acc with
               | Registered r' => MustRegister r' d
               | RegisterPanic e' => RegisterPanic e'
               end) ds (RegisterPanic e) = RegisterPanic e.
Proof. by induction ds. Qed.

Lemma mustRegisterAll_ok ds r :
  Forall (fun d => descError d = None) ds ->
  NoDup (fqName <$> ds) ->
  Forall (fun d => fqName d ∉ r) ds ->
  mustRegisterAll ds r = Registered (list_to_set (fqName <$> ds) ∪ r).
Proof.
  unfold mustRegisterAll. revert r.
  induction ds as [|d ds IH]; intros r Hok Hnd Hfresh; simpl.
  { by rewrite (left_id_L ∅ (∪)). }
  apply Forall_cons_1 in Hok as [Hd Hok].
  apply Forall_cons_1 in Hfresh as [Hdr Hfresh].
  rewrite fmap_cons in Hnd. apply NoDup_cons in Hnd as [Hnotin Hnd].
  unfold MustRegister at 2. rewrite Hd.
  rewrite bool_decide_eq_false_2 by done.
  rewrite IH; [|done|done|].
  - f_equal. change (list_fmap Desc string fqName ds) with (fqName <$> ds).
    by rewrite (assoc_L (∪)), (comm_L (∪) (list_to_set _) {[fqName d]}).
  - apply Forall_forall. intros d' Hd'.
    rewrite Forall_forall in Hfresh.
    intros [Heq%elem_of_singleton|Hin]%elem_of_union; [|by apply (Hfresh d')].
    apply Hnotin. rewrite <- Heq. by apply list_elem_of_fmap_2.
Qed.

(** X18. [init] does not panic: the seven descriptors are valid and their names
    differ, so from a registry that holds none of these names [init] returns
    the registry with the seven names added. Were one of the names
    registered before, [init] would panic. *)
Theorem init_registers_seven_names r :
  (Forall (fun d => fqName d ∉ r) gaugeDescs ->
   init r = Registered
              ({["katsubushi_info"; "katsubushi_uptime"; "katsubushi_curr_connections";
                 "katsubushi_total_connections"; "katsubushi_get_cmd";
                 "katsubushi_get_hits"; "katsubushi_get_misses"]} ∪ r))
  /\ (Exists (fun d => fqName d ∈ r) gaugeDescs -> exists e, init r = RegisterPanic e).
Proof.
  split.
  - intros Hfresh. unfold init. rewrite mustRegisterAll_ok; [|  | |done].
    + f_equal; unfold gaugeDescs; simpl; by rewrite (right_id_L ∅ (∪)).
    + unfold gaugeDescs. by repeat apply Forall_cons_2; try apply Forall_nil_2.
    + unfold gaugeDescs. simpl. apply (bool_decide_unpack _). by vm_compute.
  - unfold init, mustRegisterAll. generalize gaugeDescs. intros ds. revert r.
    induction ds as [|d ds IH]; intros r Hex; simpl.
    { by apply Exists_nil in Hex. }
    destruct (MustRegister r d) as [r'|e] eqn:Hm.
    + apply IH. apply Exists_cons in Hex as [Hd|Hex].
      * unfold MustRegister in Hm. destruct (descError d); [done|].
        by rewrite bool_decide_eq_true_2 in Hm.
      * unfold MustRegister in Hm. destruct (descError d); [done|].
        destruct (bool_decide (fqName d ∈ r)); [done|]. injection Hm as <-.
        eapply Exists_impl; [exact Hex|]. simpl. intros d' Hd'. by apply elem_of_union_r.
    + exists e. apply mustRegisterAll_panic.
Qed.

End Exporter.

(** * The theorems at concrete replies

    [strconv.ParseFloat] is [parseDigits], every label value is accepted and
    the poll interval is the default. *)

Lemma short_STAT_line_panics_witness :
  bodyLines parseDigits [("STAT version 1.2.3", None)]
  /\ Split "STAT" " " !! 0 = Some "STAT"
  /\ length (Split "STAT" " ") < 3
  /\ getKatsubushiStats parseDigits
       (Connected (mkConn [("STAT version 1.2.3", None); ("STAT", None); ("END", None)] None))
     = Panic (IndexOutOfRange 1 1)
  /\ iteration parseDigits acceptAll defaultMetricsInterval
       (Connected (mkConn [("STAT version 1.2.3", None); ("STAT", None); ("END", None)] None))
       start
     = Panic (IndexOutOfRange 1 1).
Proof.
  assert (H1 : bodyLines parseDigits [("STAT version 1.2.3", None)]).
  { apply Forall_cons_2; [|apply Forall_nil_2]. split; [discriminate|reflexivity]. }
  assert (H2 : Split "STAT" " " !! 0 = Some "STAT") by reflexivity.
  assert (H3 : length (Split "STAT" " ") < 3) by (simpl; lia).
  destruct (short_STAT_line_panics parseDigits acceptAll defaultMetricsInterval
              [("STAT version 1.2.3", None)] "STAT" None [("END", None)] None H1 H2 H3)
    as (_ & Hg & Hi).
  exact (conj H1 (conj H2 (conj H3 (conj Hg (Hi start))))).
Defined.

Lemma parse_failure_aborts_fetch_witness :
  bodyLines parseDigits [("STAT version 1.2.3", None)]
  /\ Split "STAT cmd_get abc" " " = ["STAT"; "cmd_get"; "abc"]
  /\ parseDigits "abc" = (0%float, Some (NumError "ParseFloat" "abc" "invalid syntax"))
  /\ getKatsubushiStats parseDigits (Connected replyBadValue)
     = Ret (None, None, Some (NumError "ParseFloat" "abc" "invalid syntax"))
  /\ iteration parseDigits acceptAll defaultMetricsInterval (Connected replyBadValue) start
     = Ret {| gauges := initialGauges;
              trace := [LogInfo "start katsubushi exporter";
                        LogErrorln (NumError "ParseFloat" "abc" "invalid syntax");
                        Sleep 1000000000] |}.
Proof.
  assert (H1 : bodyLines parseDigits [("STAT version 1.2.3", None)]).
  { apply Forall_cons_2; [|apply Forall_nil_2]. split; [discriminate|reflexivity]. }
  assert (H2 : Split "STAT cmd_get abc" " " = ["STAT"; "cmd_get"; "abc"]) by reflexivity.
  assert (H3 : "cmd_get" <> "pid") by discriminate.
  assert (H4 : "cmd_get" <> "version") by discriminate.
  assert (H5 : parseDigits "abc"
               = (0%float, Some (NumError "ParseFloat" "abc" "invalid syntax")))
    by reflexivity.
  destruct (parse_failure_aborts_fetch parseDigits acceptAll defaultMetricsInterval
              [("STAT version 1.2.3", None)] "STAT cmd_get abc" None
              [("STAT pid 42", None); ("END", None)] None
              "cmd_get" "abc" [] 0%float _ start H1 H2 H3 H4 H5) as (Hg & Hi).
  exact (conj H1 (conj H2 (conj H5 (conj Hg Hi)))).
Defined.

Lemma empty_identity_not_published_witness :
  getKatsubushiStats parseDigits (Connected replyNoIdentity)
  = Ret (Some ∅, Some (<["uptime" := 100%float]> ∅), None)
  /\ fieldEmpty (Some ∅) "version"
  /\ iteration parseDigits acceptAll defaultMetricsInterval (Connected replyNoIdentity) start
     = Ret {| gauges := initialGauges;
              trace := [LogInfo "start katsubushi exporter";
                        LogInfo "Retry since info(version or pid) is empty";
                        Sleep 1000000000] |}.
Proof.
  assert (H1 : getKatsubushiStats parseDigits (Connected replyNoIdentity)
               = Ret (Some ∅, Some (<["uptime" := 100%float]> ∅), None))
    by (vm_compute; reflexivity).
  assert (H2 : fieldEmpty (Some ∅) "version") by (left; reflexivity).
  destruct (empty_identity_not_published parseDigits acceptAll defaultMetricsInterval
              (Connected replyNoIdentity) _ _ start [] H1 (or_introl H2)) as (Hi & _).
  exact (conj H1 (conj H2 Hi)).
Defined.

Lemma info_and_stats_keys_apart_witness :
  getKatsubushiStats parseDigits (Connected reply1)
  = Ret (Some (<["pid" := "42"]> (<["version" := "1.2.3"]> ∅)),
         Some (<["uptime" := 100%float]> ∅), None)
  /\ (<["uptime" := 100%float]> (∅ : gmap string float64)) !! "pid" = None
  /\ (<["uptime" := 100%float]> (∅ : gmap string float64)) !! "version" = None
  /\ loopBody parseDigits ∅ ∅ "STAT pid 42" = Ret (Next (<["pid" := "42"]> ∅) ∅)
  /\ loopBody parseDigits ∅ ∅ "STAT uptime 100"
     = Ret (Next ∅ (<["uptime" := 100%float]> ∅)).
Proof.
  assert (H1 : getKatsubushiStats parseDigits (Connected reply1)
               = Ret (Some (<["pid" := "42"]> (<["version" := "1.2.3"]> ∅)),
                      Some (<["uptime" := 100%float]> ∅), None))
    by (vm_compute; reflexivity).
  destruct (info_and_stats_keys_apart parseDigits) as (Hinfo & Hstat & Hall).
  destruct (Hall _ _ _ _ H1) as (c & _ & _ & _ & Hp & Hv).
  assert (H2 : loopBody parseDigits ∅ ∅ "STAT pid 42" = Ret (Next (<["pid" := "42"]> ∅) ∅)).
  { apply (Hinfo ∅ ∅ "STAT pid 42" "pid" "42" []); [reflexivity|left; reflexivity]. }
  assert (H3 : loopBody parseDigits ∅ ∅ "STAT uptime 100"
               = Ret (Next ∅ (<["uptime" := 100%float]> ∅))).
  { apply (Hstat ∅ ∅ "STAT uptime 100" "uptime" "100" []);
      [reflexivity|discriminate|discriminate|reflexivity]. }
  exact (conj H1 (conj Hp (conj Hv (conj H2 H3)))).
Defined.

Lemma absent_stat_published_as_zero_witness :
  getKatsubushiStats parseDigits (Connected reply1)
  = Ret (Some (<["pid" := "42"]> (<["version" := "1.2.3"]> ∅)),
         Some (<["uptime" := 100%float]> ∅), None)
  /\ statAbsent (Some (<["uptime" := 100%float]> ∅)) "cmd_get"
  /\ exists g,
       iteration parseDigits acceptAll defaultMetricsInterval (Connected reply1)
         {| gauges := {| katsubushiInfo := ∅;
                         katsubushiUptime := <[[] := 7%float]> ∅;
                         katsubushiCurrConnections := ∅;
                         katsubushiTotalConnections := ∅;
                         katsubushiCmdGet := <[[] := 5%float]> ∅;
                         katsubushiGetHits := ∅;
                         katsubushiGetMisses := ∅ |};
            trace := [] |}
       = Ret {| gauges := g; trace := [Sleep 30000000000] |}
       /\ katsubushiUptime g !! [] = Some 100%float
       /\ katsubushiCmdGet g !! [] = Some 0%float.
Proof.
  assert (H1 : getKatsubushiStats parseDigits (Connected reply1)
               = Ret (Some (<["pid" := "42"]> (<["version" := "1.2.3"]> ∅)),
                      Some (<["uptime" := 100%float]> ∅), None))
    by (vm_compute; reflexivity).
  assert (H2 : statAbsent (Some (<["uptime" := 100%float]> ∅)) "cmd_get") by reflexivity.
  destruct (absent_stat_published_as_zero parseDigits acceptAll defaultMetricsInterval
              (Connected reply1) _ _
              {| gauges := {| katsubushiInfo := ∅;
                              katsubushiUptime := <[[] := 7%float]> ∅;
                              katsubushiCurrConnections := ∅;
                              katsubushiTotalConnections := ∅;
                              katsubushiCmdGet := <[[] := 5%float]> ∅;
                              katsubushiGetHits := ∅;
                              katsubushiGetMisses := ∅ |};
                 trace := [] |}
              H1 ltac:(discriminate) ltac:(discriminate) eq_refl eq_refl)
    as (g & Hi & Hall).
  refine (conj H1 (conj H2 (ex_intro _ g (conj Hi _)))).
  split.
  - exact (proj1 (Forall_inv Hall)).
  - exact (proj2 (Forall_inv (Forall_inv_tail (Forall_inv_tail (Forall_inv_tail Hall)))) H2).
Defined.

Lemma non_STAT_line_ignored_witness :
  "" <> "END"
  /\ Split "" " " !! 0 <> Some "STAT"
  /\ loopBody parseDigits ∅ ∅ "" = Ret (Next ∅ ∅)
  /\ getKatsubushiStats parseDigits
       (Connected (mkConn [("STAT version 1.2.3", None); ("", None); ("END", None)] None))
     = getKatsubushiStats parseDigits
         (Connected (mkConn [("STAT version 1.2.3", None); ("END", None)] None)).
Proof.
  assert (H1 : "" <> "END") by discriminate.
  assert (H2 : Split "" " " !! 0 <> Some "STAT") by discriminate.
  destruct (non_STAT_line_ignored parseDigits "" H1 H2) as (Hb & Hg).
  exact (conj H1 (conj H2 (conj (Hb ∅ ∅)
           (Hg [("STAT version 1.2.3", None)] None [("END", None)] None)))).
Defined.

Lemma end_of_stream_without_END_witness :
  Forall (fun t : string * option error => t.1 <> "END") (scanned replyNoEND)
  /\ Forall (fun t : string * option error => wellFormedLine parseDigits t.1 = true)
            (scanned replyNoEND)
  /\ getKatsubushiStats parseDigits (Connected replyNoEND)
     = Ret (Some (<["pid" := "42"]> (<["version" := "1.2.3"]> ∅)), Some ∅, None).
Proof.
  assert (H1 : Forall (fun t : string * option error => t.1 <> "END") (scanned replyNoEND)).
  { repeat (apply Forall_cons_2 || apply Forall_nil_2); discriminate. }
  assert (H2 : Forall (fun t : string * option error => wellFormedLine parseDigits t.1 = true)
                      (scanned replyNoEND)).
  { repeat (apply Forall_cons_2 || apply Forall_nil_2); reflexivity. }
  destruct (end_of_stream_without_END parseDigits (scanned replyNoEND) H1) as (_ & Hg).
  exact (conj H1 (conj H2 (Hg H2))).
Defined.

Lemma reparsing_is_idempotent_witness :
  bodyLines parseDigits
    [("STAT version 1.2.3", None); ("STAT pid 42", None); ("STAT uptime 100", None)]
  /\ getKatsubushiStats parseDigits (Connected reply1)
     = Ret (Some (<["pid" := "42"]> (<["version" := "1.2.3"]> ∅)),
            Some (<["uptime" := 100%float]> ∅), None)
  /\ scanLoop parseDigits (scanned reply1) (scanErr reply1)
       (<["pid" := "42"]> (<["version" := "1.2.3"]> ∅)) (<["uptime" := 100%float]> ∅)
     = Ret (Some (<["pid" := "42"]> (<["version" := "1.2.3"]> ∅)),
            Some (<["uptime" := 100%float]> ∅), None).
Proof.
  assert (H1 : bodyLines parseDigits
                 [("STAT version 1.2.3", None); ("STAT pid 42", None);
                  ("STAT uptime 100", None)]).
  { repeat (apply Forall_cons_2 || apply Forall_nil_2); (split; [discriminate|reflexivity]). }
  destruct (reparsing_is_idempotent parseDigits
              [("STAT version 1.2.3", None); ("STAT pid 42", None); ("STAT uptime 100", None)]
              None [] None H1) as (Hg & Hs).
  exact (conj H1 (conj Hg Hs)).
Defined.

Lemma error_return_shapes_witness :
  bodyLines parseDigits (scanned replyReadError)
  /\ getKatsubushiStats parseDigits (Connected replyReadError)
     = Ret (Some (<["version" := "1.2.3"]> ∅), Some ∅,
            Some (ScanError "connection reset by peer"))
  /\ getKatsubushiStats parseDigits (DialFailed (OpError "dial" "connection refused"))
     = Ret (None, None, Some (OpError "dial" "connection refused"))
  /\ getKatsubushiStats parseDigits (Connected replyBadValue)
     = Ret (None, None, Some (NumError "ParseFloat" "abc" "invalid syntax")).
Proof.
  assert (H1 : bodyLines parseDigits (scanned replyReadError)).
  { repeat (apply Forall_cons_2 || apply Forall_nil_2); (split; [discriminate|reflexivity]). }
  destruct (error_return_shapes parseDigits) as (Hdial & Hparse & Hscan).
  refine (conj H1 (conj (Hscan _ _ H1) (conj (Hdial _) _))).
  apply (Hparse [("STAT version 1.2.3", None)] "STAT cmd_get abc" None
           [("STAT pid 42", None); ("END", None)] None "cmd_get" "abc" [] 0%float).
  - exact H1.
  - reflexivity.
  - discriminate.
  - discriminate.
  - reflexivity.
Defined.

Lemma first_token_always_exists_witness :
  Split "" " " !! 0 <> Some "STAT"
  /\ index (Split "" " ") 0 = Ret ""
  /\ loopBody parseDigits ∅ ∅ "" = Ret (Next ∅ ∅)
  /\ index (Split "" " ") 1 = Panic (IndexOutOfRange 1 1).
Proof.
  assert (H1 : Split "" " " !! 0 <> Some "STAT") by discriminate.
  destruct (first_token_always_exists parseDigits "" H1) as (_ & _ & Hb & Hp).
  exact (conj H1 (conj eq_refl (conj (Hb ∅ ∅) (Hp eq_refl)))).
Defined.

(** ** Where two claims fail as they were first stated *)

(** C2 as first stated fails. The reply [replyBadAfterEND] holds the line
    [STAT cmd_get abc], whose value is refused, after its [END]: the fetch
    returns both maps and no error, and the turn publishes [uptime]. The
    reply [replyTwoBadValues] holds that line after another one with a
    refused value: the fetch returns the error of the other line. *)
Lemma parse_failure_line_not_always_decisive :
  (scanned replyBadAfterEND !! 4 = Some ("STAT cmd_get abc", None)
   /\ Split "STAT cmd_get abc" " " = ["STAT"; "cmd_get"; "abc"]
   /\ parseDigits "abc" = (0%float, Some (NumError "ParseFloat" "abc" "invalid syntax"))
   /\ getKatsubushiStats parseDigits (Connected replyBadAfterEND)
      = Ret (Some (<["pid" := "42"]> (<["version" := "1.2.3"]> ∅)),
             Some (<["uptime" := 100%float]> ∅), None)
   /\ getKatsubushiStats parseDigits (Connected replyBadAfterEND)
      <> Ret (None, None, Some (NumError "ParseFloat" "abc" "invalid syntax"))
   /\ exists st,
        iteration parseDigits acceptAll defaultMetricsInterval
          (Connected replyBadAfterEND) start = Ret st
        /\ katsubushiUptime (gauges st) !! [] = Some 100%float
        /\ katsubushiUptime (gauges start) !! [] = None)
  /\ (scanned replyTwoBadValues !! 1 = Some ("STAT cmd_get abc", None)
      /\ getKatsubushiStats parseDigits (Connected replyTwoBadValues)
         = Ret (None, None, Some (NumError "ParseFloat" "x" "invalid syntax"))
      /\ getKatsubushiStats parseDigits (Connected replyTwoBadValues)
         <> Ret (None, None, Some (NumError "ParseFloat" "abc" "invalid syntax"))).
Proof.
  split.
  - split; [reflexivity|]. split; [reflexivity|]. split; [reflexivity|].
    split; [vm_compute; reflexivity|]. split; [vm_compute; discriminate|].
    eexists. split; [vm_compute; reflexivity|]. split; reflexivity.
  - split; [reflexivity|]. split; [reflexivity|]. vm_compute. discriminate.
Qed.

(** C7 as first stated fails. The stream [replyNoENDBadValue] ends without
    a line [END] and without a read error, and its last line has a value
    that is refused: the fetch returns that error and two nil maps, not the
    maps accumulated so far. *)
Lemma end_of_stream_can_return_error :
  Forall (fun t : string * option error => t.1 <> "END") (scanned replyNoENDBadValue)
  /\ scanErr replyNoENDBadValue = None
  /\ parseDigits "abc" = (0%float, Some (NumError "ParseFloat" "abc" "invalid syntax"))
  /\ getKatsubushiStats parseDigits (Connected replyNoENDBadValue)
     = Ret (None, None, Some (NumError "ParseFloat" "abc" "invalid syntax")).
Proof.
  split.
  { repeat (apply Forall_cons_2 || apply Forall_nil_2); discriminate. }
  split; [reflexivity|]. split; reflexivity.
Qed.

(** ** The further properties at concrete replies *)

Lemma fetch_maps_read_back_witness :
  getKatsubushiStats parseDigits (Connected reply1)
  = Ret (Some (<["pid" := "42"]> (<["version" := "1.2.3"]> ∅)),
         Some (<["uptime" := 100%float]> ∅), None)
  /\ exists c pre,
       Connected reply1 = Connected c /\ bodyLines parseDigits pre
       /\ ((scanned c = pre /\ None = scanErr c)
           \/ exists post, scanned c = (pre ++ ("END", None) :: post)%list)
       /\ accumulated parseDigits pre.*1
          = (<["pid" := "42"]> (<["version" := "1.2.3"]> ∅), <["uptime" := 100%float]> ∅).
Proof.
  assert (H1 : getKatsubushiStats parseDigits (Connected reply1)
               = Ret (Some (<["pid" := "42"]> (<["version" := "1.2.3"]> ∅)),
                      Some (<["uptime" := 100%float]> ∅), None))
    by (vm_compute; reflexivity).
  exact (conj H1 (fetch_maps_read_back parseDigits _ _ _ _ H1)).
Defined.

Lemma fetch_panic_read_back_witness :
  getKatsubushiStats parseDigits (Connected (mkConn [("STAT", None)] None))
  = Panic (IndexOutOfRange 1 1)
  /\ exists c pre s e post,
       Connected (mkConn [("STAT", None)] None) = Connected c
       /\ scanned c = (pre ++ (s, e) :: post)%list /\ bodyLines parseDigits pre
       /\ s <> "END" /\ Split s " " !! 0 = Some "STAT" /\ length (Split s " ") < 3
       /\ IndexOutOfRange 1 1
          = IndexOutOfRange (length (Split s " ")) (length (Split s " ")).
Proof.
  assert (H1 : getKatsubushiStats parseDigits (Connected (mkConn [("STAT", None)] None))
               = Panic (IndexOutOfRange 1 1)) by reflexivity.
  exact (conj H1 (fetch_panic_read_back parseDigits _ _ H1)).
Defined.

Lemma fetch_nil_read_back_witness :
  getKatsubushiStats parseDigits (Connected replyBadValue)
  = Ret (None, None, Some (NumError "ParseFloat" "abc" "invalid syntax"))
  /\ exists err,
       Some (NumError "ParseFloat" "abc" "invalid syntax") = Some err
       /\ (Connected replyBadValue = DialFailed err
           \/ exists c pre s e post k v more f,
                Connected replyBadValue = Connected c
                /\ scanned c = (pre ++ (s, e) :: post)%list /\ bodyLines parseDigits pre
                /\ Split s " " = "STAT" :: k :: v :: more
                /\ k <> "pid" /\ k <> "version" /\ parseDigits v = (f, Some err)).
Proof.
  assert (H1 : getKatsubushiStats parseDigits (Connected replyBadValue)
               = Ret (None, None, Some (NumError "ParseFloat" "abc" "invalid syntax")))
    by reflexivity.
  exact (conj H1 (proj2 (fetch_nil_read_back parseDigits _ _ _ H1))).
Defined.

Lemma last_STAT_line_wins_witness :
  bodyLines parseDigits [("STAT uptime 1", None); ("STAT uptime 100", None); ("STAT pid 42", None)]
  /\ Forall (fun t : string * option error => lineKey t.1 <> Some "uptime")
            [("STAT pid 42", None)]
  /\ exists info stats,
       getKatsubushiStats parseDigits (Connected replyTwoUptimes)
       = Ret (Some info, Some stats, None)
       /\ stats !! "uptime" = Some 100%float.
Proof.
  assert (H1 : bodyLines parseDigits
                 ([("STAT uptime 1", None)] ++ ("STAT uptime 100", None) :: [("STAT pid 42", None)])).
  { repeat (apply Forall_cons_2 || apply Forall_nil_2); (split; [discriminate|reflexivity]). }
  assert (H2 : Forall (fun t : string * option error => lineKey t.1 <> Some "uptime")
                      [("STAT pid 42", None)]).
  { apply Forall_cons_2; [discriminate|apply Forall_nil_2]. }
  destruct (last_STAT_line_wins parseDigits [("STAT uptime 1", None)] "STAT uptime 100" None
              [("STAT pid 42", None)] None [] None "uptime" "100" [] H1 eq_refl H2)
    as (info & stats & Hg & _ & Hnum).
  refine (conj H1 (conj H2 (ex_intro _ info (ex_intro _ stats (conj Hg _))))).
  destruct (Hnum ltac:(discriminate) ltac:(discriminate)) as (f & Hf & Hs).
  injection Hf as <-. exact Hs.
Defined.

Lemma lines_for_other_keys_commute_witness :
  bodyLines parseDigits [("STAT uptime 100", None); ("STAT pid 42", None)]
  /\ lineKey "STAT uptime 100" = Some "uptime"
  /\ lineKey "STAT pid 42" = Some "pid"
  /\ getKatsubushiStats parseDigits
       (Connected (mkConn [("STAT uptime 100", None); ("STAT pid 42", None); ("END", None)] None))
     = getKatsubushiStats parseDigits
         (Connected (mkConn [("STAT pid 42", None); ("STAT uptime 100", None); ("END", None)] None)).
Proof.
  assert (H1 : bodyLines parseDigits ([] ++ [("STAT uptime 100", None); ("STAT pid 42", None)])).
  { repeat (apply Forall_cons_2 || apply Forall_nil_2); (split; [discriminate|reflexivity]). }
  assert (H2 : forall k, lineKey "STAT uptime 100" = Some k -> lineKey "STAT pid 42" <> Some k).
  { intros k Hk. injection Hk as <-. discriminate. }
  exact (conj H1 (conj eq_refl (conj eq_refl
           (lines_for_other_keys_commute parseDigits [] "STAT uptime 100" None
              "STAT pid 42" None [("END", None)] None H1 H2)))).
Defined.

Lemma stored_tokens_hold_no_space_witness :
  getKatsubushiStats parseDigits (Connected reply1)
  = Ret (Some (<["pid" := "42"]> (<["version" := "1.2.3"]> ∅)),
         Some (<["uptime" := 100%float]> ∅), None)
  /\ (forall k v, (<["pid" := "42"]> (<["version" := "1.2.3"]> (∅ : gmap string string)))
                    !! k = Some v ->
                  Count k " " = 0 /\ Count v " " = 0).
Proof.
  assert (H1 : getKatsubushiStats parseDigits (Connected reply1)
               = Ret (Some (<["pid" := "42"]> (<["version" := "1.2.3"]> ∅)),
                      Some (<["uptime" := 100%float]> ∅), None))
    by (vm_compute; reflexivity).
  exact (conj H1 (proj1 (stored_tokens_hold_no_space parseDigits _ _ _ _ H1))).
Defined.

Lemma line_read_up_to_third_token_witness :
  Split "STAT version 1.2.3 beta" " " = ["STAT"; "version"; "1.2.3"; "beta"]
  /\ loopBody parseDigits ∅ ∅ "STAT version 1.2.3 beta"
     = loopBody parseDigits ∅ ∅ "STAT version 1.2.3".
Proof.
  assert (H1 : Split "STAT version 1.2.3 beta" " " = ["STAT"; "version"; "1.2.3"; "beta"])
    by reflexivity.
  exact (conj H1 (line_read_up_to_third_token parseDigits ∅ ∅ _ _ _ _ _ H1)).
Defined.

Lemma Split_Join_inverse_witness :
  ["STAT"; "pid"; "42"] <> ([] : list string)
  /\ Forall (fun t => Count t " " = 0) ["STAT"; "pid"; "42"]
  /\ Split (Join ["STAT"; "pid"; "42"] " ") " " = ["STAT"; "pid"; "42"].
Proof.
  assert (H1 : ["STAT"; "pid"; "42"] <> ([] : list string)) by discriminate.
  assert (H2 : Forall (fun t => Count t " " = 0) ["STAT"; "pid"; "42"]).
  { repeat (apply Forall_cons_2 || apply Forall_nil_2); reflexivity. }
  exact (conj H1 (conj H2 (proj2 (Split_Join_inverse " ") _ H1 H2))).
Defined.


Lemma every_turn_sleeps_once_witness :
  exists st',
    pollLoop parseDigits acceptAll defaultMetricsInterval
      [DialFailed (OpError "dial" "connection refused"); Connected reply1] start
    = Ret st'
    /\ sleeps (trace st') = [1000000000%Z; 30000000000%Z]
    /\ exists added,
         trace st' = (trace start ++ added)%list /\ length (sleeps added) = 2.
Proof.
  eexists. split; [vm_compute; reflexivity|]. split; [reflexivity|].
  destruct (every_turn_sleeps_once parseDigits acceptAll defaultMetricsInterval
              [DialFailed (OpError "dial" "connection refused"); Connected reply1]
              start _ ltac:(vm_compute; reflexivity))
    as (added & Htr & Hlen & _).
  exact (ex_intro _ added (conj Htr Hlen)).
Defined.


Lemma info_series_never_retracted_witness :
  exists st st',
    pollLoop parseDigits acceptAll defaultMetricsInterval [Connected reply1] start = Ret st
    /\ pollLoop parseDigits acceptAll defaultMetricsInterval [Connected replyRestarted] st
       = Ret st'
    /\ katsubushiInfo (gauges st) !! ["1.2.3"; "42"] = Some 1%float
    /\ katsubushiInfo (gauges st') !! ["1.2.3"; "42"] = Some 1%float
    /\ katsubushiInfo (gauges st') !! ["1.2.3"; "43"] = Some 1%float.
Proof.
  eexists. eexists.
  split; [vm_compute; reflexivity|].
  lazymatch goal with
  | |- pollLoop _ _ _ _ ?st = _ /\ _ =>
      split; [vm_compute; reflexivity|];
      split; [reflexivity|]; split; [|reflexivity];
      exact (info_series_never_retracted parseDigits acceptAll defaultMetricsInterval
               [Connected replyRestarted] st _ ["1.2.3"; "42"]
               ltac:(vm_compute; reflexivity) ltac:(reflexivity))
  end.
Defined.

Lemma same_reply_twice_same_gauges_witness :
  exists st1 st2,
    iteration parseDigits acceptAll defaultMetricsInterval (Connected reply1) start = Ret st1
    /\ iteration parseDigits acceptAll defaultMetricsInterval (Connected reply1) st1 = Ret st2
    /\ gauges st2 = gauges st1.
Proof.
  eexists. eexists.
  split; [vm_compute; reflexivity|].
  lazymatch goal with
  | |- iteration _ _ _ _ ?st1 = _ /\ _ =>
      split; [vm_compute; reflexivity|];
      exact (same_reply_twice_same_gauges parseDigits acceptAll defaultMetricsInterval
               (Connected reply1) start st1 _
               ltac:(vm_compute; reflexivity) ltac:(vm_compute; reflexivity))
  end.
Defined.

Lemma Seconds_in_range_witness :
  (-9223372036 <= defaultMetricsInterval <= 9223372036)%Z
  /\ Seconds defaultMetricsInterval = 30000000000%Z.
Proof.
  assert (H1 : (-9223372036 <= defaultMetricsInterval <= 9223372036)%Z).
  { unfold defaultMetricsInterval. lia. }
  exact (conj H1 (proj1 (proj2 (Seconds_in_range defaultMetricsInterval)) H1)).
Defined.

Lemma init_registers_seven_names_witness :
  Forall (fun d => fqName d ∉ ({["go_goroutines"; "process_cpu_seconds_total"]} : gset string))
         gaugeDescs
  /\ init {["go_goroutines"; "process_cpu_seconds_total"]}
     = Registered
         ({["katsubushi_info"; "katsubushi_uptime"; "katsubushi_curr_connections";
            "katsubushi_total_connections"; "katsubushi_get_cmd";
            "katsubushi_get_hits"; "katsubushi_get_misses"]}
          ∪ {["go_goroutines"; "process_cpu_seconds_total"]}).
Proof.
  assert (H1 : Forall (fun d => fqName d
                         ∉ ({["go_goroutines"; "process_cpu_seconds_total"]} : gset string))
                      gaugeDescs).
  { apply (bool_decide_unpack _). vm_compute. exact I. }
  exact (conj H1 (proj1 (init_registers_seven_names _) H1)).
Defined.

(** The first scenario of the specification: the reply [reply1] gives
    InfoFields [{version: 1.2.3, pid: 42}] and StatFields [{uptime: 100}], and
    the first turn of the loop then sets [katsubushi_info] at those labels to
    1 and [katsubushi_uptime] to 100, and sleeps the poll interval. *)
Theorem scenario_reply1 :
  getKatsubushiStats parseDigits (Connected reply1)
  = Ret (Some (<["pid" := "42"]> (<["version" := "1.2.3"]> ∅)),
         Some (<["uptime" := 100%float]> ∅), None)
  /\ iteration parseDigits acceptAll defaultMetricsInterval (Connected reply1) start
     = Ret {| gauges := {| katsubushiInfo := <[["1.2.3"; "42"] := 1%float]> ∅;
                           katsubushiUptime := <[[] := 100%float]> ∅;
                           katsubushiCurrConnections := <[[] := 0%float]> ∅;
                           katsubushiTotalConnections := <[[] := 0%float]> ∅;
                           katsubushiCmdGet := <[[] := 0%float]> ∅;
                           katsubushiGetHits := <[[] := 0%float]> ∅;
                           katsubushiGetMisses := <[[] := 0%float]> ∅ |};
              trace := [LogInfo "start katsubushi exporter"; Sleep 30000000000] |}.
Proof. split; vm_compute; reflexivity. Qed.
